(** * lmdrouter: the request decoder ([decoder.go])

    A shallow embedding of [UnmarshalRequest] and of the functions it is
    built from ([unmarshalEvent], [unmarshalBody], [unmarshalField],
    [parseInt64Param], [parseUint64Param], [parseFloat64Param]), followed by
    the properties of the binding engine.

    Conventions.
    - A Go [string] is a sequence of bytes: Rocq's [string].
    - A Go map that is only ever looked up is a [gmap]; a nil map behaves as
      the empty one.
    - A function that writes through a [reflect.Value] takes the content of
      that location before the call and returns its content after the call,
      together with what the call returned: an error, no error, or a panic.
    - Struct fields are settable (exported), as the documentation of
      [UnmarshalRequest] requires of the fields it fills. *)

From Stdlib Require Import ZArith String Ascii List Bool Lia.
From Stdlib Require Import Floats.SpecFloat.
From stdpp Require Import base option strings list gmap.

Local Open Scope string_scope.
Local Open Scope list_scope.
Local Open Scope Z_scope.

(** ** The Go library functions the decoder calls *)

(** *** [strings] *)

(** [strings.Split(s, sep)] for a separator of one byte: the components of
    [s] between the separators, in order; [n] separators give [n+1]
    components, some of which may be empty. *)
Fixpoint strings_Split (s : string) (sep : ascii) : list string :=
  match s with
  | EmptyString => [EmptyString]
  | String c s' =>
      if Ascii.eqb c sep then EmptyString :: strings_Split s' sep
      else match strings_Split s' sep with
           | h :: t => String c h :: t
           | [] => [String c EmptyString]
           end
  end.

Definition lower_byte (c : ascii) : ascii :=
  let n := nat_of_ascii c in
  if (65 <=? n)%nat && (n <=? 90)%nat then ascii_of_nat (n + 32) else c.

(** [strings.ToLower]: the letters [A]-[Z] are mapped to [a]-[z]. On text
    that is not ASCII Go maps each rune to its lower case; no such rune
    lower-cases to a letter or digit that [boolRegex] mentions, and a
    multi-byte encoding holds no ASCII byte, so the outcome of the match
    below is the one of this byte-wise map. *)
Fixpoint strings_ToLower (s : string) : string :=
  match s with
  | EmptyString => EmptyString
  | String c s' => String (lower_byte c) (strings_ToLower s')
  end.

(** *** [strconv] *)

Definition maxUint64 : Z := 2 ^ 64 - 1.

Definition digit_of (c : ascii) : option Z :=
  let n := Z.of_nat (nat_of_ascii c) in
  if (48 <=? n) && (n <=? 57) then Some (n - 48) else None.

Fixpoint parse_digits (acc : Z) (s : string) : option Z :=
  match s with
  | EmptyString => Some acc
  | String c s' =>
      match digit_of c with
      | Some d => parse_digits (acc * 10 + d) s'
      | None => None
      end
  end.

(** [strconv.ParseUint(s, 10, 64)]: [None] stands for a non-nil error
    (syntax or range); the decoder does not look at the value then. *)
Definition strconv_ParseUint (s : string) : option Z :=
  match s with
  | EmptyString => None
  | _ =>
      match parse_digits 0 s with
      | Some n => if n <=? maxUint64 then Some n else None
      | None => None
      end
  end.

(** [strconv.ParseInt(s, 10, 64)]: an optional sign, then the digits. *)
Definition strconv_ParseInt (s : string) : option Z :=
  match s with
  | EmptyString => None
  | String c s' =>
      let neg := Ascii.eqb c "-" in
      let digits := if Ascii.eqb c "+" || neg then s' else s in
      match digits with
      | EmptyString => None
      | _ =>
          match parse_digits 0 digits with
          | Some un =>
              if neg then (if un <=? 2 ^ 63 then Some (- un) else None)
              else (if un <? 2 ^ 63 then Some un else None)
          | None => None
          end
      end
  end.

Definition quote_char : ascii := ascii_of_nat 34.
Definition backslash : ascii := ascii_of_nat 92.

Fixpoint quote_body (s : string) : string :=
  match s with
  | EmptyString => EmptyString
  | String c s' =>
      if Ascii.eqb c quote_char || Ascii.eqb c backslash
      then String backslash (String c (quote_body s'))
      else String c (quote_body s')
  end.

(** [strconv.Quote], which [%q] prints a string with: the text between
    double quotes, a quote or a backslash in it escaped. (Go also escapes
    bytes that are not printable ASCII; the decoder quotes only the source
    component of a struct tag.) *)
Definition strconv_Quote (s : string) : string :=
  String quote_char (quote_body s +:+ String quote_char EmptyString).

(** *** [regexp] *)

(** The regular expressions [boolRegex] is made of: literals, the two
    anchors, concatenation and alternation. *)
Inductive regexp : Type :=
| re_BeginText
| re_EndText
| re_Literal (s : string)
| re_Concat (r1 r2 : regexp)
| re_Alternate (r1 r2 : regexp).

Fixpoint string_drop (n : nat) (s : string) : string :=
  match n, s with
  | O, _ => s
  | S n', String _ s' => string_drop n' s'
  | S _, EmptyString => EmptyString
  end.

(** A position in the text: how many bytes lie before it, and the text
    from it on. [re_step r p] lists the positions at which a match of [r]
    that starts at [p] can end. *)
Fixpoint re_step (r : regexp) (p : nat * string) : list (nat * string) :=
  match r with
  | re_BeginText => if Nat.eqb (fst p) 0 then [p] else []
  | re_EndText => match snd p with EmptyString => [p] | _ => [] end
  | re_Literal s =>
      if String.prefix s (snd p)
      then [((fst p + String.length s)%nat, string_drop (String.length s) (snd p))]
      else []
  | re_Concat r1 r2 => flat_map (re_step r2) (re_step r1 p)
  | re_Alternate r1 r2 => re_step r1 p ++ re_step r2 p
  end.

Definition matches_at (r : regexp) (p : nat * string) : bool :=
  match re_step r p with [] => false | _ => true end.

Fixpoint search_from (r : regexp) (i : nat) (s : string) : bool :=
  matches_at r (i, s)
  || match s with
     | EmptyString => false
     | String _ s' => search_from r (S i) s'
     end.

(** [Regexp.MatchString]: whether some substring of [s] matches. *)
Definition regexp_MatchString (r : regexp) (s : string) : bool :=
  search_from r 0 s.

(** *** [encoding/base64] *)

Definition base64_value (c : ascii) : option Z :=
  let n := Z.of_nat (nat_of_ascii c) in
  if (65 <=? n) && (n <=? 90) then Some (n - 65)
  else if (97 <=? n) && (n <=? 122) then Some (n - 71)
  else if (48 <=? n) && (n <=? 57) then Some (n + 4)
  else if n =? 43 then Some 62
  else if n =? 47 then Some 63
  else None.

Definition byte_of_Z (z : Z) : ascii := ascii_of_nat (Z.to_nat (z mod 256)).

Definition is_newline (c : ascii) : bool :=
  Ascii.eqb c (ascii_of_nat 10) || Ascii.eqb c (ascii_of_nat 13).

Fixpoint drop_newlines (s : string) : string :=
  match s with
  | EmptyString => EmptyString
  | String c s' =>
      if is_newline c then drop_newlines s' else String c (drop_newlines s')
  end.

(** The quanta of four characters, the last one possibly padded. *)
Fixpoint base64_quanta (s : string) : option string :=
  match s with
  | EmptyString => Some EmptyString
  | String c1 (String c2 (String c3 (String c4 rest))) =>
      match base64_value c1, base64_value c2 with
      | Some v1, Some v2 =>
          match base64_value c3, base64_value c4 with
          | Some v3, Some v4 =>
              let val := v1 * 262144 + v2 * 4096 + v3 * 64 + v4 in
              match base64_quanta rest with
              | Some out =>
                  Some (String (byte_of_Z (val / 65536))
                         (String (byte_of_Z (val / 256))
                           (String (byte_of_Z val) out)))
              | None => None
              end
          | Some v3, None =>
              if Ascii.eqb c4 "=" && String.eqb rest EmptyString
              then let val := v1 * 262144 + v2 * 4096 + v3 * 64 in
                   Some (String (byte_of_Z (val / 65536))
                          (String (byte_of_Z (val / 256)) EmptyString))
              else None
          | None, _ =>
              if Ascii.eqb c3 "=" && Ascii.eqb c4 "=" && String.eqb rest EmptyString
              then let val := v1 * 262144 + v2 * 4096 in
                   Some (String (byte_of_Z (val / 65536)) EmptyString)
              else None
          end
      | _, _ => None
      end
  | _ => None
  end.

(** [base64.StdEncoding.DecodeString]: [None] stands for a
    [CorruptInputError]. Line breaks in the input are skipped. *)
Definition base64_DecodeString (s : string) : option string :=
  base64_quanta (drop_newlines s).

(** ** [reflect]: kinds, types and values *)

Inductive Kind : Type :=
| reflect_Invalid | reflect_Bool
| reflect_Int | reflect_Int8 | reflect_Int16 | reflect_Int32 | reflect_Int64
| reflect_Uint | reflect_Uint8 | reflect_Uint16 | reflect_Uint32
| reflect_Uint64 | reflect_Uintptr
| reflect_Float32 | reflect_Float64 | reflect_Complex64 | reflect_Complex128
| reflect_Array | reflect_Chan | reflect_Func | reflect_Interface | reflect_Map
| reflect_Ptr | reflect_Slice | reflect_String | reflect_Struct
| reflect_UnsafePointer.

(** The types of struct fields. [Prim k None] is the predeclared type of
    kind [k] ([string], [int8], ...), [Prim k (Some n)] a defined type [n]
    whose underlying type is that one (as [type mockConst string]);
    [PtrTo] and [SliceOf] are the unnamed types [*T] and [[]T]; a struct
    type is known by its name. Kinds the decoder has no case for (maps,
    interfaces, ...) are [Prim] types too. *)
Inductive rtype : Type :=
| Prim (k : Kind) (defined : option string)
| PtrTo (elem : rtype)
| SliceOf (elem : rtype)
| StructT (name : string).

Definition rtype_Kind (t : rtype) : Kind :=
  match t with
  | Prim k _ => k
  | PtrTo _ => reflect_Ptr
  | SliceOf _ => reflect_Slice
  | StructT _ => reflect_Struct
  end.

(** Whether [t] is the predeclared type [bool]: the only type [T] for which
    a [*bool] is assignable to a [*T]. *)
Definition is_bool_type (t : rtype) : bool :=
  match t with
  | Prim reflect_Bool None => true
  | _ => false
  end.

(** [reflect.TypeOf(time.Now())] *)
Definition time_Time_type : rtype := StructT "time.Time".

Definition is_time_Time (t : rtype) : bool :=
  match t with
  | StructT n => String.eqb n "time.Time"
  | _ => false
  end.

Definition float64 : Type := spec_float.

(** An instant as [time.Parse] returns it: seconds and nanoseconds since
    the epoch, and the offset of its zone. *)
Record time_Time : Type := mkTime { unixSec : Z; nanos : Z; zoneOffset : Z }.

#[warnings="-register-all"]
Inductive value : Type :=
| VBool (b : bool)
| VInt (n : Z)
| VUint (n : Z)
| VFloat (x : float64)
| VString (s : string)
| VPtr (p : option value)
| VSlice (s : option (list value))
| VTime (t : time_Time)
| VOpaque.

(** The zero value of a type; [reflect.MakeSlice] fills a slice with it. *)
Definition zero (t : rtype) : value :=
  match t with
  | Prim k _ =>
      match k with
      | reflect_Bool => VBool false
      | reflect_Int | reflect_Int8 | reflect_Int16 | reflect_Int32
      | reflect_Int64 => VInt 0
      | reflect_Uint | reflect_Uint8 | reflect_Uint16 | reflect_Uint32
      | reflect_Uint64 | reflect_Uintptr => VUint 0
      | reflect_Float32 | reflect_Float64 => VFloat (S754_zero false)
      | reflect_String => VString EmptyString
      | _ => VOpaque
      end
  | PtrTo _ => VPtr None
  | SliceOf _ => VSlice None
  | StructT _ => VOpaque
  end.

(** The width of the integer kinds ([int] and [uint] have 64 bits on the
    platforms Lambda runs on). *)
Definition bits (k : Kind) : Z :=
  match k with
  | reflect_Int8 | reflect_Uint8 => 8
  | reflect_Int16 | reflect_Uint16 => 16
  | reflect_Int32 | reflect_Uint32 => 32
  | _ => 64
  end.

Definition wrap_signed (w x : Z) : Z :=
  (x + 2 ^ (w - 1)) mod 2 ^ w - 2 ^ (w - 1).

Definition wrap_unsigned (w x : Z) : Z := x mod 2 ^ w.

(** [Value.SetInt] stores [intN(x)] and [Value.SetUint] [uintN(x)]: a Go
    conversion between integer types, which keeps the low bits. *)
Definition SetInt (k : Kind) (x : Z) : value := VInt (wrap_signed (bits k) x).
Definition SetUint (k : Kind) (x : Z) : value := VUint (wrap_unsigned (bits k) x).

Definition float32_of (x : float64) : float64 :=
  match x with
  | S754_finite s m e => binary_round 24 128 s m e
  | _ => x
  end.

(** [Value.SetFloat] stores [float32(x)] in a field of kind [Float32]. *)
Definition SetFloat (k : Kind) (x : float64) : value :=
  match k with
  | reflect_Float32 => VFloat (float32_of x)
  | _ => VFloat x
  end.

(** ** Errors and outcomes *)

Definition http_StatusBadRequest : Z := 400.

(** The error values the decoder returns, by their dynamic type:
    [errors.New] and [fmt.Errorf] without [%w] give an [errorString],
    [fmt.Errorf] with [%w] a [wrapError] around the error it was given;
    [HTTPError] is the router's own error type, with the status code the
    response is to carry; the other two come from the library. *)
Inductive error : Type :=
| errorString (s : string)
| wrapError (msg : string) (err : error)
| HTTPError (Code : Z) (Message : string)
| base64_CorruptInputError
| time_ParseError (layout val : string).

(** What a call does: it returns (an error, or [None] for [nil]), or it
    panics. *)
Inductive outcome : Type :=
| Returns (err : option error)
| Panics (reason : string).

(** ** Library functions taken as given

    The float and timestamp parsers and the JSON decoder are not part of
    the repository; the decoder is modelled over any choice of them. *)
Record StructField : Type :=
  mkField { Name : string; lambdaTag : string; Type_ : rtype }.

(** What a non-nil pointer passed as target points to. *)
Inductive pointee : Type :=
| pointee_struct (fields : list (StructField * value))
| pointee_other (tyname : string).

Class GoLib : Type := {
  (** [strconv.ParseFloat(s, 64)]; [None] for a non-nil error *)
  strconv_ParseFloat : string -> option float64;
  (** [time.Parse(layout, s)]; [None] for a non-nil error *)
  time_Parse : string -> string -> option time_Time;
  (** the syntax check [json.Unmarshal] starts with: the message of the
      syntax error, if any *)
  json_checkValid : string -> option string;
  (** decoding a valid document into what the target points to *)
  json_decode : string -> pointee -> pointee * option string
}.

Definition time_RFC3339 : string := "2006-01-02T15:04:05Z07:00".

(** ** The request and the target *)

(** The fields of [events.APIGatewayProxyRequest] the decoder reads. *)
Record APIGatewayProxyRequest : Type := mkRequest {
  QueryStringParameters : gmap string string;
  MultiValueQueryStringParameters : gmap string (list string);
  PathParameters : gmap string string;
  Headers : gmap string string;
  MultiValueHeaders : gmap string (list string);
  Body : string;
  IsBase64Encoded : bool
}.

(** The [target interface{}] argument: the nil interface, a value that is
    not a pointer, a nil pointer, or a pointer to something. [tyname] is
    what [Type.String()] prints. *)
Inductive target : Type :=
| target_nil
| target_value (tyname : string)
| target_nilptr (tyname : string)
| target_ptr (p : pointee).

(** ** The decoder *)

(** [boolRegex = regexp.MustCompile(`^1|true|on|enabled$`)]. Alternation
    binds weaker than concatenation and than the anchors, so the pattern
    has four alternatives: [^1], [true], [on] and [enabled$]. *)
Definition boolRegex : regexp :=
  re_Alternate (re_Concat re_BeginText (re_Literal "1"))
    (re_Alternate (re_Literal "true")
       (re_Alternate (re_Literal "on")
          (re_Concat (re_Literal "enabled") re_EndText))).

(** [m[k]] on a [map[string]string]: the empty string when [k] is absent. *)
Definition map_index (m : gmap string string) (k : string) : string :=
  default EmptyString (m !! k).

(** [v, ok := m[k]] *)
Definition map_lookup_ok (m : gmap string string) (k : string) : string * bool :=
  match m !! k with
  | Some v => (v, true)
  | None => (EmptyString, false)
  end.

Definition parseInt64Param (param str : string) (ok : bool) : Z * option error :=
  if negb ok then (0, None)
  else match strconv_ParseInt str with
       | Some value => (value, None)
       | None =>
           (0, Some (HTTPError http_StatusBadRequest
                       (param +:+ " must be a valid integer")))
       end.

Definition parseUint64Param (param str : string) (ok : bool) : Z * option error :=
  if negb ok then (0, None)
  else match strconv_ParseUint str with
       | Some value => (value, None)
       | None =>
           (0, Some (HTTPError http_StatusBadRequest
                       (param +:+ " must be a valid, positive integer")))
       end.

(** [reflect.ValueOf(&val).Convert(t)] for a string [val]: a [*string]
    converts to the pointer type [t] when the type [t] points to has the
    underlying type [string]; otherwise [Convert] panics ([None]). *)
Definition Convert_ptr_string (val : string) (t : rtype) : option value :=
  match t with
  | PtrTo (Prim reflect_String _) => Some (VPtr (Some (VString val)))
  | _ => None
  end.

(** The [for i, str := range strs] loop of the slice case: [f] is the
    recursive call on element [i] of the new slice. *)
Fixpoint range_strs (f : value -> string -> value * outcome) (i : nat)
    (strs : list string) (slice : list value) : list value * outcome :=
  match strs with
  | [] => (slice, Returns None)
  | str :: rest =>
      match slice !! i with
      | None => (slice, Panics "reflect: slice index out of range")
      | Some elem =>
          let '(elem', o) := f elem str in
          let slice' := <[ i := elem' ]> slice in
          match o with
          | Returns None => range_strs f (S i) rest slice'
          | _ => (slice', o)
          end
      end
  end.

Section Decoder.
Context {lib : GoLib}.

Definition parseFloat64Param (param str : string) (ok : bool)
    : float64 * option error :=
  if negb ok then (S754_zero false, None)
  else match strconv_ParseFloat str with
       | Some value => (value, None)
       | None =>
           (S754_zero false,
            Some (HTTPError http_StatusBadRequest
                    (param +:+ " must be a valid floating point number")))
       end.

Fixpoint unmarshalField (typeField : rtype) (valueField : value)
    (params : gmap string string) (multiParam : gmap string (list string))
    (param : string) : value * outcome :=
  match typeField with
  | Prim k _ =>
      match k with
      | reflect_String => (VString (map_index params param), Returns None)
      | reflect_Int | reflect_Int8 | reflect_Int16 | reflect_Int32
      | reflect_Int64 =>
          let '(str, ok) := map_lookup_ok params param in
          match parseInt64Param param str ok with
          | (_, Some err) => (valueField, Returns (Some err))
          | (value, None) => (SetInt k value, Returns None)
          end
      | reflect_Uint | reflect_Uint8 | reflect_Uint16 | reflect_Uint32
      | reflect_Uint64 =>
          let '(str, ok) := map_lookup_ok params param in
          match parseUint64Param param str ok with
          | (_, Some err) => (valueField, Returns (Some err))
          | (value, None) => (SetUint k value, Returns None)
          end
      | reflect_Float32 | reflect_Float64 =>
          let '(str, ok) := map_lookup_ok params param in
          match parseFloat64Param param str ok with
          | (_, Some err) => (valueField, Returns (Some err))
          | (value, None) => (SetFloat k value, Returns None)
          end
      | reflect_Bool =>
          (VBool (regexp_MatchString boolRegex
                    (strings_ToLower (map_index params param))),
           Returns None)
      | _ => (valueField, Returns None)
      end
  | PtrTo elem =>
      match params !! param with
      | Some val =>
          match rtype_Kind elem with
          | reflect_Int | reflect_Int32 | reflect_Int64 | reflect_String
          | reflect_Float32 | reflect_Float64 =>
              match Convert_ptr_string val typeField with
              | Some p => (p, Returns None)
              | None =>
                  (valueField,
                   Panics "reflect.Value.Convert: value of type *string cannot be converted")
              end
          | reflect_Struct =>
              if is_time_Time elem then
                match time_Parse time_RFC3339 val with
                | Some parsedTime =>
                    (VPtr (Some (VTime parsedTime)), Returns None)
                | None =>
                    (valueField, Returns (Some (time_ParseError time_RFC3339 val)))
                end
              else (valueField, Returns None)
          | reflect_Bool =>
              let b := regexp_MatchString boolRegex (strings_ToLower val) in
              if is_bool_type elem then (VPtr (Some (VBool b)), Returns None)
              else (valueField,
                    Panics "reflect.Set: value of type *bool is not assignable")
          | _ => (valueField, Returns None)
          end
      | None => (valueField, Returns None)
      end
  | SliceOf elem =>
      match multiParam !! param with
      | Some strs =>
          let slice := replicate (length strs) (zero elem) in
          match
            range_strs
              (fun e str => unmarshalField elem e {[ "param" := str ]} ∅ "param")
              0 strs slice
          with
          | (slice', Returns None) => (VSlice (Some slice'), Returns None)
          | (_, o) => (valueField, o)
          end
      | None => (valueField, Returns None)
      end
  | StructT _ => (valueField, Returns None)
  end.

(** The [switch components[0]] of [unmarshalEvent]: the single-valued and
    the multi-valued map of a source ([path] has no multi-valued map, and
    [multiMap] stays nil); [None] is the default case. *)
Definition source_maps (req : APIGatewayProxyRequest) (location : string)
    : option (gmap string string * gmap string (list string)) :=
  if String.eqb location "query" then
    Some (QueryStringParameters req, MultiValueQueryStringParameters req)
  else if String.eqb location "path" then Some (PathParameters req, ∅)
  else if String.eqb location "header" then
    Some (Headers req, MultiValueHeaders req)
  else None.

(** The body of the loop of [unmarshalEvent], for one field. *)
Definition unmarshalEvent_field (req : APIGatewayProxyRequest)
    (typeField : StructField) (valueField : value) : value * outcome :=
  let lambdaTag := lambdaTag typeField in
  if String.eqb lambdaTag EmptyString then (valueField, Returns None)
  else
    let components := strings_Split lambdaTag "." in
    if negb (Nat.eqb (length components) 2) then
      (valueField,
       Returns (Some (errorString
                        ("invalid lambda tag for field " +:+ Name typeField))))
    else
      let c0 := nth 0 components EmptyString in
      let c1 := nth 1 components EmptyString in
      match source_maps req c0 with
      | Some (sourceMap, multiMap) =>
          unmarshalField (Type_ typeField) valueField sourceMap multiMap c1
      | None =>
          (valueField,
           Returns (Some (errorString
                            ("invalid param location " +:+ strconv_Quote c0
                             +:+ " for field " +:+ Name typeField))))
      end.

(** The loop over the fields: the first outcome that is not [nil] ends it;
    the fields bound before stay bound. *)
Fixpoint unmarshalEvent_fields (req : APIGatewayProxyRequest)
    (fields : list (StructField * value))
    : list (StructField * value) * outcome :=
  match fields with
  | [] => ([], Returns None)
  | (typeField, valueField) :: rest =>
      let '(valueField', o) := unmarshalEvent_field req typeField valueField in
      match o with
      | Returns None =>
          let '(rest', o') := unmarshalEvent_fields req rest in
          ((typeField, valueField') :: rest', o')
      | _ => ((typeField, valueField') :: rest, o)
      end
  end.

Definition unmarshalEvent (req : APIGatewayProxyRequest) (tgt : target)
    : target * outcome :=
  match tgt with
  | target_ptr (pointee_struct fields) =>
      let '(fields', o) := unmarshalEvent_fields req fields in
      (target_ptr (pointee_struct fields'), o)
  | target_ptr (pointee_other _) =>
      (tgt, Panics "reflect: NumField of non-struct type")
  | _ =>
      (tgt, Returns (Some (errorString
                             "invalid unmarshal target, must be pointer to struct")))
  end.

(** [json.Unmarshal(data, target)]: the syntax check, then the check that
    the target is a non-nil pointer ([InvalidUnmarshalError]), then the
    decoding. The result is the target after the call and the message of
    the error, if any. *)
Definition json_Unmarshal (data : string) (tgt : target) : target * option string :=
  match json_checkValid data with
  | Some msg => (tgt, Some msg)
  | None =>
      match tgt with
      | target_nil => (tgt, Some "json: Unmarshal(nil)")
      | target_value ty => (tgt, Some ("json: Unmarshal(non-pointer " +:+ ty +:+ ")"))
      | target_nilptr ty => (tgt, Some ("json: Unmarshal(nil " +:+ ty +:+ ")"))
      | target_ptr p =>
          let '(p', err) := json_decode data p in (target_ptr p', err)
      end
  end.

Definition unmarshalBody (req : APIGatewayProxyRequest) (tgt : target)
    : target * outcome :=
  let finish (r : target * option string) : target * outcome :=
    match r with
    | (tgt', Some msg) =>
        (tgt', Returns (Some (HTTPError http_StatusBadRequest
                                ("invalid request body: " +:+ msg))))
    | (tgt', None) => (tgt', Returns None)
    end in
  if IsBase64Encoded req then
    match base64_DecodeString (Body req) with
    | None =>
        (tgt, Returns (Some (wrapError "failed decoding body: "
                               base64_CorruptInputError)))
    | Some body => finish (json_Unmarshal body tgt)
    end
  else finish (json_Unmarshal (Body req) tgt).

Definition UnmarshalRequest (req : APIGatewayProxyRequest) (body : bool)
    (tgt : target) : target * outcome :=
  if body then
    match unmarshalBody req tgt with
    | (tgt', Returns None) => unmarshalEvent req tgt'
    | r => r
    end
  else unmarshalEvent req tgt.

End Decoder.

(** ** Closed inputs

    To evaluate the decoder on a concrete request the library functions
    have to be fixed. The inputs used below hold no float, no text that is
    a timestamp and no body other than the JSON document [{}]; on these the
    instance answers as the library does, and nothing else is asked of
    it. *)
Definition plain_lib : GoLib :=
  {| strconv_ParseFloat := fun _ => None;
     time_Parse := fun _ _ => None;
     json_checkValid := fun _ => None;
     json_decode := fun _ p => (p, None) |}.

(** A request with nothing in it but a query string. *)
Definition query_request (q : gmap string string)
    (mq : gmap string (list string)) : APIGatewayProxyRequest :=
  mkRequest q mq ∅ ∅ ∅ EmptyString false.

(** ** What the properties are stated with *)

Definition signed_kind (k : Kind) : bool :=
  match k with
  | reflect_Int | reflect_Int8 | reflect_Int16 | reflect_Int32
  | reflect_Int64 => true
  | _ => false
  end.

Definition unsigned_kind (k : Kind) : bool :=
  match k with
  | reflect_Uint | reflect_Uint8 | reflect_Uint16 | reflect_Uint32
  | reflect_Uint64 => true
  | _ => false
  end.

Definition float_kind (k : Kind) : bool :=
  match k with
  | reflect_Float32 | reflect_Float64 => true
  | _ => false
  end.

(** The scalar kinds: string, the integers, the floats and bool. *)
Definition scalar_kind (k : Kind) : bool :=
  match k with
  | reflect_String | reflect_Bool => true
  | _ => signed_kind k || unsigned_kind k || float_kind k
  end.

(** The integer kinds of fewer than 64 bits. *)
Definition narrow_kind (k : Kind) : bool :=
  match k with
  | reflect_Int8 | reflect_Int16 | reflect_Int32
  | reflect_Uint8 | reflect_Uint16 | reflect_Uint32 => true
  | _ => false
  end.

(** The least and the greatest value of an integer kind. *)
Definition min_of (k : Kind) : Z :=
  if signed_kind k then - 2 ^ (bits k - 1) else 0.
Definition max_of (k : Kind) : Z :=
  if signed_kind k then 2 ^ (bits k - 1) - 1 else 2 ^ bits k - 1.

(** The error classes of the decoder. *)
Definition InvalidTarget : error :=
  errorString "invalid unmarshal target, must be pointer to struct".

Definition InvalidAnnotation (fieldName : string) : error :=
  errorString ("invalid lambda tag for field " +:+ fieldName).

Definition UnknownSourceKind (location fieldName : string) : error :=
  errorString ("invalid param location " +:+ strconv_Quote location
               +:+ " for field " +:+ fieldName).

(** An error the router answers with status 400. *)
Definition bad_request (e : error) : bool :=
  match e with
  | HTTPError code _ => code =? http_StatusBadRequest
  | _ => false
  end.

(** What [SetInt] or [SetUint] leaves in a field of kind [k]. *)
Definition integer_write (k : Kind) (x : Z) : value :=
  if signed_kind k then SetInt k x else SetUint k x.

(** The value [x] as a field of kind [k] holds it. *)
Definition integer_value (k : Kind) (x : Z) : value :=
  if signed_kind k then VInt x else VUint x.

(** The parser the decoder uses for a field of kind [k]. *)
Definition parse_integer (k : Kind) (str : string) : option Z :=
  if signed_kind k then strconv_ParseInt str else strconv_ParseUint str.

(** The conversion of one element of a sequence: the call the slice case
    makes for it, on a fresh element of the new slice. *)
Definition convert_element {lib : GoLib} (elem : rtype) (str : string)
    : value * outcome :=
  unmarshalField elem (zero elem) {[ "param" := str ]} ∅ "param".

(** The errors [unmarshalField] returns: a bad request, or the error of
    [time.Parse]. *)
Definition conversion_error (e : error) : Prop :=
  (exists msg, e = HTTPError http_StatusBadRequest msg)
  \/ (exists val, e = time_ParseError time_RFC3339 val).

(** Whether the target is a non-nil pointer. *)
Definition nonnil_pointer (tgt : target) : bool :=
  match tgt with
  | target_ptr _ => true
  | _ => false
  end.

(** The error of [unmarshalBody] for a body that is not base64. *)
Definition DecodingBody : error :=
  wrapError "failed decoding body: " base64_CorruptInputError.

(** Whether [p] occurs in [s], and whether [s] ends with [p]. *)
Fixpoint contains (p s : string) : bool :=
  String.prefix p s
  || match s with
     | EmptyString => false
     | String _ s' => contains p s'
     end.

Fixpoint ends_with (p s : string) : bool :=
  String.eqb p s
  || match s with
     | EmptyString => false
     | String _ s' => ends_with p s'
     end.

(** ** Further definitions the properties are stated with *)


(** What the field binder makes of one field of a record. *)
Definition bind_one {lib : GoLib} (req : APIGatewayProxyRequest)
    (fv : StructField * value) : StructField * value :=
  (fst fv, fst (unmarshalEvent_field req (fst fv) (snd fv))).

Definition binds {lib : GoLib} (req : APIGatewayProxyRequest)
    (fv : StructField * value) : Prop :=
  snd (unmarshalEvent_field req (fst fv) (snd fv)) = Returns None.

(** The decimal digit [d], and the decimal text of a number that is not
    negative, most significant digit first ([fuel] bounds the number of
    digits). *)
Definition digit_char (d : Z) : ascii := ascii_of_nat (Z.to_nat (48 + d)).

Fixpoint format_digits (fuel : nat) (n : Z) : string :=
  match fuel with
  | O => EmptyString
  | S fuel' =>
      if n <? 10 then String (digit_char n) EmptyString
      else format_digits fuel' (n / 10)
           +:+ String (digit_char (n mod 10)) EmptyString
  end.

(** [strconv.FormatUint(n, 10)] for a [uint64], which has at most 20
    digits, and [strconv.FormatInt(x, 10)]. *)
Definition strconv_FormatUint (n : Z) : string := format_digits 20 n.

Definition strconv_FormatInt (x : Z) : string :=
  if x <? 0 then String "-" (strconv_FormatUint (- x)) else strconv_FormatUint x.

(** The decimal text of [x] as Go prints a value of kind [k]. *)
Definition format_integer (k : Kind) (x : Z) : string :=
  if signed_kind k then strconv_FormatInt x else strconv_FormatUint x.

Definition integer_kind (k : Kind) : bool := signed_kind k || unsigned_kind k.

(** How often the byte [c] occurs in [s]. *)
Fixpoint count_byte (c : ascii) (s : string) : nat :=
  match s with
  | EmptyString => O
  | String c' s' => ((if Ascii.eqb c' c then 1 else 0) + count_byte c s')%nat
  end.

(** [strings.Join(elems, sep)] for a separator of one byte. *)
Fixpoint strings_Join (elems : list string) (sep : ascii) : string :=
  match elems with
  | [] => EmptyString
  | [e] => e
  | e :: rest => e +:+ String sep (strings_Join rest sep)
  end.

(** The request with the maps of [req] and the given body. *)
Definition with_body (req : APIGatewayProxyRequest) (body : string)
    (encoded : bool) : APIGatewayProxyRequest :=
  mkRequest (QueryStringParameters req) (MultiValueQueryStringParameters req)
    (PathParameters req) (Headers req) (MultiValueHeaders req) body encoded.

(** The alphabet of [base64.StdEncoding]. *)
Definition base64_char (v : Z) : ascii :=
  ascii_of_nat (Z.to_nat
    (if v <? 26 then v + 65
     else if v <? 52 then v + 71
     else if v <? 62 then v - 4
     else if v =? 62 then 43 else 47)).

Definition byte_value (b : ascii) : Z := Z.of_nat (nat_of_ascii b).

(** [base64.StdEncoding.EncodeToString]: three bytes give four characters;
    one or two bytes left over give two or three characters and the
    padding. *)
Fixpoint base64_EncodeToString (src : string) : string :=
  match src with
  | EmptyString => EmptyString
  | String b1 EmptyString =>
      let val := byte_value b1 * 65536 in
      String (base64_char (val / 262144))
        (String (base64_char ((val / 4096) mod 64)) "==")
  | String b1 (String b2 EmptyString) =>
      let val := byte_value b1 * 65536 + byte_value b2 * 256 in
      String (base64_char (val / 262144))
        (String (base64_char ((val / 4096) mod 64))
           (String (base64_char ((val / 64) mod 64)) "="))
  | String b1 (String b2 (String b3 rest)) =>
      let val := byte_value b1 * 65536 + byte_value b2 * 256 + byte_value b3 in
      String (base64_char (val / 262144))
        (String (base64_char ((val / 4096) mod 64))
           (String (base64_char ((val / 64) mod 64))
              (String (base64_char (val mod 64))
                 (base64_EncodeToString rest))))
  end.

(** What a field of type [t] that held [v] holds after a conversion whose
    key is absent from both maps: the zero value for the scalar kinds, and
    [v] for every other type. *)
Definition absent_result (t : rtype) (v : value) : value :=
  match t with
  | Prim k _ => if scalar_kind k then zero t else v
  | _ => v
  end.

(** * Properties *)

(** ** Arithmetic of the integer writes *)

Lemma wrap_signed_range (w x : Z) :
  0 < w -> - 2 ^ (w - 1) <= wrap_signed w x < 2 ^ (w - 1).
Proof.
  intros Hw. unfold wrap_signed.
  assert (H2 : 2 ^ w = 2 * 2 ^ (w - 1)).
  { replace w with (Z.succ (w - 1)) at 1 by lia. apply Z.pow_succ_r. lia. }
  assert (Hp : 0 < 2 ^ (w - 1)) by (apply Z.pow_pos_nonneg; lia).
  pose proof (Z.mod_pos_bound (x + 2 ^ (w - 1)) (2 ^ w)) as Hb.
  lia.
Qed.

Lemma wrap_unsigned_range (w x : Z) : 0 <= w -> 0 <= wrap_unsigned w x < 2 ^ w.
Proof.
  intros Hw. unfold wrap_unsigned. apply Z.mod_pos_bound.
  apply Z.pow_pos_nonneg; lia.
Qed.

Lemma bits_pos (k : Kind) : 0 < bits k.
Proof. destruct k; simpl; lia. Qed.

(** ** Absent keys *)

(** C8. A field of a scalar kind (string, signed or unsigned integer, float,
    bool) whose key is absent from the single-valued map holds the zero
    value of its type after the call, and the call returns no error. *)
Theorem absent_scalar_is_zero {lib : GoLib} (k : Kind) (d : option string)
    (v : value) (params : gmap string string)
    (multiParam : gmap string (list string)) (param : string) :
  scalar_kind k = true ->
  params !! param = None ->
  unmarshalField (Prim k d) v params multiParam param
  = (zero (Prim k d), Returns None).
Proof.
  intros Hk Habs.
  destruct k; try discriminate Hk; simpl;
    unfold map_lookup_ok, map_index; rewrite Habs; reflexivity.
Qed.

Lemma absent_scalar_is_zero_witness :
  unmarshalField (lib := plain_lib) (Prim reflect_Int32 None) (VInt 7)
    {[ "page" := "2" ]} ∅ "size"
  = (VInt 0, Returns None).
Proof.
  exact (absent_scalar_is_zero (lib := plain_lib) reflect_Int32 None (VInt 7)
           {[ "page" := "2" ]} ∅ "size" eq_refl eq_refl).
Defined.

(** ** Integer fields narrower than the parsed value *)

Lemma signed_field_write {lib : GoLib} (k : Kind) (d : option string) (v : value)
    (params : gmap string string) (multiParam : gmap string (list string))
    (param str : string) (x : Z) :
  signed_kind k = true ->
  params !! param = Some str ->
  strconv_ParseInt str = Some x ->
  unmarshalField (Prim k d) v params multiParam param
  = (SetInt k x, Returns None).
Proof.
  intros Hk Hpres Hparse.
  destruct k; try discriminate Hk; simpl;
    unfold map_lookup_ok, parseInt64Param; rewrite Hpres; simpl;
    rewrite Hparse; reflexivity.
Qed.

Lemma unsigned_field_write {lib : GoLib} (k : Kind) (d : option string) (v : value)
    (params : gmap string string) (multiParam : gmap string (list string))
    (param str : string) (x : Z) :
  unsigned_kind k = true ->
  params !! param = Some str ->
  strconv_ParseUint str = Some x ->
  unmarshalField (Prim k d) v params multiParam param
  = (SetUint k x, Returns None).
Proof.
  intros Hk Hpres Hparse.
  destruct k; try discriminate Hk; simpl;
    unfold map_lookup_ok, parseUint64Param; rewrite Hpres; simpl;
    rewrite Hparse; reflexivity.
Qed.

Lemma integer_write_in_range (k : Kind) (x : Z) :
  exists x', integer_write k x = integer_value k x'
             /\ min_of k <= x' <= max_of k.
Proof.
  unfold integer_write, integer_value, min_of, max_of, SetInt, SetUint.
  destruct (signed_kind k).
  - eexists; split; [ reflexivity | ].
    pose proof (wrap_signed_range (bits k) x (bits_pos k)). lia.
  - eexists; split; [ reflexivity | ].
    pose proof (wrap_unsigned_range (bits k) x) as Hb.
    pose proof (bits_pos k). lia.
Qed.

(** C10, as amended. A present text that parses as a 64-bit integer is
    written to a narrower integer field by [SetInt] or [SetUint] without an
    error and without a panic: the call returns [nil] and the field holds
    the parsed value reduced to the width of the field, which is not the
    parsed value when that one lies outside the range of the field's
    kind. *)
Theorem narrow_integer_write_truncates {lib : GoLib} (k : Kind) (d : option string)
    (v : value) (params : gmap string string)
    (multiParam : gmap string (list string)) (param str : string) (x : Z) :
  narrow_kind k = true ->
  params !! param = Some str ->
  parse_integer k str = Some x ->
  unmarshalField (Prim k d) v params multiParam param
  = (integer_write k x, Returns None)
  /\ (x < min_of k \/ max_of k < x -> integer_write k x <> integer_value k x).
Proof.
  intros Hk Hpres Hparse. split.
  - unfold parse_integer, integer_write in *.
    destruct (signed_kind k) eqn:Hs.
    + now apply signed_field_write with (str := str).
    + apply unsigned_field_write with (str := str); try assumption.
      destruct k; try discriminate Hk; try discriminate Hs; reflexivity.
  - intros Hout Heq.
    destruct (integer_write_in_range k x) as (x' & Hx' & Hr).
    rewrite Hx' in Heq. unfold integer_value in Heq.
    destruct (signed_kind k); injection Heq as ->; lia.
Qed.

Lemma narrow_integer_write_truncates_witness :
  unmarshalField (lib := plain_lib) (Prim reflect_Int8 None) (VInt 0)
    {[ "n" := "300" ]} ∅ "n" = (VInt 44, Returns None)
  /\ (300 < -128 \/ 127 < 300 -> VInt 44 <> VInt 300).
Proof.
  exact (narrow_integer_write_truncates (lib := plain_lib) reflect_Int8 None
           (VInt 0) {[ "n" := "300" ]} ∅ "n" "300" 300
           eq_refl eq_refl eq_refl).
Defined.

(** C10 as stated fails: the write of 300 to an [int8] field does
    not panic; the call returns [nil] and the field holds 44. *)
Lemma narrow_integer_write_does_not_panic :
  unmarshalField (lib := plain_lib) (Prim reflect_Int8 None) (VInt 0)
    {[ "n" := "300" ]} ∅ "n" = (VInt 44, Returns None)
  /\ strconv_ParseInt "300" = Some 300
  /\ ~ (exists reason,
          snd (unmarshalField (lib := plain_lib) (Prim reflect_Int8 None) (VInt 0)
                 {[ "n" := "300" ]} ∅ "n") = Panics reason).
Proof.
  split; [ reflexivity | split; [ reflexivity | ] ].
  intros [reason Hp]. discriminate Hp.
Qed.

(** ** Boolean fields *)

(** The four tokens of the documentation are matched, in any case of
    their letters, and the empty text is not. *)
Lemma boolRegex_tokens :
  map (fun s => regexp_MatchString boolRegex (strings_ToLower s))
    ["1"; "true"; "TRUE"; "on"; "On"; "enabled"; "ENABLED";
     ""; "0"; "false"; "no"]
  = [true; true; true; true; true; true; true; false; false; false; false].
Proof. reflexivity. Qed.

(** What [boolRegex] matches: a text that starts with [1], or holds [true]
    or [on] somewhere, or ends with [enabled]. *)
Lemma boolRegex_unanchored :
  map (fun s => regexp_MatchString boolRegex (strings_ToLower s))
    ["none"; "10"; "untrue"; "London"; "disenabled"]
  = [true; true; true; true; true].
Proof. reflexivity. Qed.

(** C1 (a defect of the code). The documentation of [UnmarshalRequest]
    says that a boolean field accepts the values 1, true, on and enabled
    and that any other value is false. The pattern lacks the group around
    its alternatives, so the anchors bind to the first and the last one
    only: the text [none] is none of the four tokens, and a boolean field
    bound to it is set to [true], without an error. *)
Theorem bool_field_none_is_true {lib : GoLib} (v : value)
    (multiParam : gmap string (list string)) :
  unmarshalField (Prim reflect_Bool None) v {[ "flag" := "none" ]} multiParam
    "flag"
  = (VBool true, Returns None).
Proof. reflexivity. Qed.

(** ** Optional fields *)

(** C3 (a defect of the code). The pointer case lists the integer and
    float kinds beside [String] and converts a [*string] to the type of the
    field for all of them; [Convert] panics unless that type points to a
    string. An optional integer field whose key is present is neither
    bound nor reported as a bad integer: the call panics, on well-formed
    and on malformed text alike. *)
Theorem optional_int_field_panics {lib : GoLib} (v : value) (val : string)
    (multiParam : gmap string (list string)) :
  unmarshalField (PtrTo (Prim reflect_Int None)) v {[ "count" := val ]}
    multiParam "count"
  = (v, Panics "reflect.Value.Convert: value of type *string cannot be converted").
Proof. reflexivity. Qed.

(** ** Errors of sequence elements *)

(** C5 (a defect of the code). A scalar field names its key in the message
    of a failed conversion; the slice case calls [unmarshalField] for each
    element with a map of its own and the key ["param"], so the message for
    an element names [param], not the key of the field. *)
Theorem slice_element_error_names_param {lib : GoLib} (v : value)
    (params : gmap string string) (multiParam : gmap string (list string)) :
  unmarshalField (SliceOf (Prim reflect_Int64 None)) v params
    {[ "numbers" := ["1"; "x"] ]} "numbers"
  = (v, Returns (Some (HTTPError http_StatusBadRequest
                         "param must be a valid integer")))
  /\ unmarshalField (Prim reflect_Int64 None) v {[ "numbers" := "x" ]}
       multiParam "numbers"
     = (v, Returns (Some (HTTPError http_StatusBadRequest
                            "numbers must be a valid integer"))).
Proof. split; reflexivity. Qed.

(** ** The request body *)

(** C6, as amended. When the body is asked for and is flagged as base64
    but does not decode, the call fails before the target is looked at,
    with the error of the decoding wrapped by [fmt.Errorf]: a plain error
    that carries no status, not a bad request. The target is left as it
    was. *)
Theorem malformed_base64_is_unclassified {lib : GoLib}
    (req : APIGatewayProxyRequest) (tgt : target) :
  IsBase64Encoded req = true ->
  base64_DecodeString (Body req) = None ->
  UnmarshalRequest req true tgt = (tgt, Returns (Some DecodingBody))
  /\ bad_request DecodingBody = false.
Proof.
  intros Hflag Hdec. split; [ | reflexivity ].
  unfold UnmarshalRequest, unmarshalBody. rewrite Hflag, Hdec. reflexivity.
Qed.

Lemma malformed_base64_is_unclassified_witness :
  UnmarshalRequest (lib := plain_lib)
    (mkRequest ∅ ∅ ∅ ∅ ∅ "%%%" true) true (target_nilptr "*main.Input")
  = (target_nilptr "*main.Input", Returns (Some DecodingBody))
  /\ bad_request DecodingBody = false.
Proof.
  exact (malformed_base64_is_unclassified (lib := plain_lib)
           (mkRequest ∅ ∅ ∅ ∅ ∅ "%%%" true) (target_nilptr "*main.Input")
           eq_refl eq_refl).
Defined.

(** C6 as stated fails: for the body [%%%] flagged as base64 the
    call returns an error that is no [HTTPError] and no bad request. *)
Lemma malformed_base64_is_not_bad_request :
  base64_DecodeString "%%%" = None
  /\ UnmarshalRequest (lib := plain_lib)
       (mkRequest ∅ ∅ ∅ ∅ ∅ "%%%" true) true
       (target_ptr (pointee_struct []))
     = (target_ptr (pointee_struct []),
        Returns (Some (wrapError "failed decoding body: "
                         base64_CorruptInputError)))
  /\ bad_request (wrapError "failed decoding body: " base64_CorruptInputError)
     = false.
Proof. repeat split. Qed.

(** ** Sequence fields *)

Section RangeStrs.
Variable f : value -> string -> value * outcome.
Variable z : value.
Implicit Types (strs : list string) (done : list value).

Lemma insert_after done (e : value) (rest : list value) :
  <[ length done := e ]> (done ++ z :: rest) = done ++ e :: rest.
Proof. induction done as [| d done IH]; simpl; [ | rewrite IH ]; reflexivity. Qed.

(** One turn of the loop, when the elements before [i] are done and the
    others still hold the zero value. *)
Lemma range_strs_turn done str strs :
  range_strs f (length done) (str :: strs)
    (done ++ replicate (length (str :: strs)) z)
  = match f z str with
    | (e, Returns None) =>
        range_strs f (length (done ++ [e])) strs
          ((done ++ [e]) ++ replicate (length strs) z)
    | (e, o) => (done ++ e :: replicate (length strs) z, o)
    end.
Proof.
  simpl. rewrite list_lookup_middle by reflexivity.
  destruct (f z str) as [e o]. rewrite insert_after.
  destruct o as [[err|]|reason]; try reflexivity.
  rewrite length_app, Nat.add_1_r, <- app_assoc. reflexivity.
Qed.

Lemma range_strs_all_ok strs : forall done,
  Forall (fun str => snd (f z str) = Returns None) strs ->
  range_strs f (length done) strs (done ++ replicate (length strs) z)
  = (done ++ map (fun str => fst (f z str)) strs, Returns None).
Proof.
  induction strs as [| str strs IH]; intros done Hall.
  - simpl. reflexivity.
  - rewrite range_strs_turn. inversion Hall as [| ? ? Hstr Hrest]; subst.
    destruct (f z str) as [e o] eqn:Hf. simpl in Hstr. subst o.
    rewrite IH by assumption. rewrite <- app_assoc. simpl.
    rewrite Hf. reflexivity.
Qed.

Lemma range_strs_failure strs : forall done,
  snd (range_strs f (length done) strs (done ++ replicate (length strs) z))
  <> Returns None ->
  exists pre str post,
    strs = pre ++ str :: post
    /\ Forall (fun s => snd (f z s) = Returns None) pre
    /\ snd (f z str)
       = snd (range_strs f (length done) strs
                (done ++ replicate (length strs) z)).
Proof.
  induction strs as [| str strs IH]; intros done Hfail.
  - simpl in Hfail. congruence.
  - rewrite range_strs_turn in Hfail |- *.
    destruct (f z str) as [e o] eqn:Hf.
    destruct o as [[err|]|reason].
    + exists [], str, strs. rewrite Hf. repeat split. constructor.
    + destruct (IH _ Hfail) as (pre & str' & post & -> & Hpre & Hsnd).
      exists (str :: pre), str', post. repeat split; [ | exact Hsnd ].
      constructor; [ rewrite Hf; reflexivity | exact Hpre ].
    + exists [], str, strs. rewrite Hf. repeat split. constructor.
Qed.

Lemma range_strs_success strs : forall done,
  snd (range_strs f (length done) strs (done ++ replicate (length strs) z))
  = Returns None ->
  Forall (fun str => snd (f z str) = Returns None) strs.
Proof.
  induction strs as [| str strs IH]; intros done Hok.
  - constructor.
  - rewrite range_strs_turn in Hok.
    destruct (f z str) as [e o] eqn:Hf.
    destruct o as [[err|]|reason]; try discriminate Hok.
    constructor; [ rewrite Hf; reflexivity | exact (IH _ Hok) ].
Qed.
End RangeStrs.

Lemma slice_case {lib : GoLib} (elem : rtype) (v : value)
    (params : gmap string string) (multiParam : gmap string (list string))
    (param : string) (strs : list string) :
  multiParam !! param = Some strs ->
  unmarshalField (SliceOf elem) v params multiParam param
  = match range_strs
            (fun e str => unmarshalField elem e {[ "param" := str ]} ∅ "param")
            0 strs (replicate (length strs) (zero elem))
    with
    | (slice', Returns None) => (VSlice (Some slice'), Returns None)
    | (_, o) => (v, o)
    end.
Proof. intros Hpres. simpl. rewrite Hpres. reflexivity. Qed.

(** C9. A sequence field whose key is absent from the multi-valued map is
    left as it was, with no error. When the key is present with the list
    [strs]: the call returns no error exactly when every element converts
    without one; then the field holds a sequence of the length of [strs]
    whose element [i] is the conversion of element [i] of [strs]; and when
    the call does not return [nil], what it returns is the outcome of the
    first element that does not convert, and the field is left as it
    was. *)
Theorem sequence_binding {lib : GoLib} (elem : rtype) (v : value)
    (params : gmap string string) (multiParam : gmap string (list string))
    (param : string) :
  match multiParam !! param with
  | None =>
      unmarshalField (SliceOf elem) v params multiParam param
      = (v, Returns None)
  | Some strs =>
      (snd (unmarshalField (SliceOf elem) v params multiParam param)
       = Returns None
       <-> Forall (fun str => snd (convert_element elem str) = Returns None)
             strs)
      /\ (snd (unmarshalField (SliceOf elem) v params multiParam param)
          = Returns None ->
          exists out,
            fst (unmarshalField (SliceOf elem) v params multiParam param)
            = VSlice (Some out)
            /\ length out = length strs
            /\ forall (i : nat) (str : string),
                 strs !! i = Some str ->
                 out !! i = Some (fst (convert_element elem str)))
      /\ (snd (unmarshalField (SliceOf elem) v params multiParam param)
          <> Returns None ->
          fst (unmarshalField (SliceOf elem) v params multiParam param) = v
          /\ exists pre str post,
               strs = pre ++ str :: post
               /\ Forall (fun s => snd (convert_element elem s) = Returns None)
                    pre
               /\ snd (convert_element elem str)
                  = snd (unmarshalField (SliceOf elem) v params multiParam
                           param))
  end.
Proof.
  destruct (multiParam !! param) as [strs|] eqn:Hlook.
  2: { simpl. rewrite Hlook. reflexivity. }
  rewrite (slice_case elem v params multiParam param strs Hlook).
  set (f := fun e str => unmarshalField elem e {[ "param" := str ]} ∅ "param").
  pose proof (range_strs_all_ok f (zero elem) strs []) as Hall.
  pose proof (range_strs_success f (zero elem) strs []) as Hsucc.
  pose proof (range_strs_failure f (zero elem) strs []) as Hfail.
  simpl in Hall, Hsucc, Hfail.
  change (fun str => snd (f (zero elem) str) = Returns None)
    with (fun str => snd (convert_element elem str) = Returns None) in *.
  destruct (range_strs f 0 strs (replicate (length strs) (zero elem)))
    as [slice' o] eqn:Hloop.
  simpl in Hall, Hsucc, Hfail.
  assert (Hok : o = Returns None ->
                slice' = map (fun str => fst (convert_element elem str)) strs).
  { intros ->. specialize (Hall (Hsucc eq_refl)).
    injection Hall as ->. reflexivity. }
  split; [ | split ].
  - destruct o as [[err|]|reason]; simpl; split; intros Hx;
      try discriminate Hx; try reflexivity;
      try (specialize (Hall Hx); discriminate Hall).
    exact (Hsucc eq_refl).
  - destruct o as [[err|]|reason]; simpl; intros Hx; try discriminate Hx.
    rewrite (Hok eq_refl). eexists; split; [ reflexivity | split ].
    + apply length_map.
    + intros i str Hi.
      rewrite list_lookup_fmap, Hi. reflexivity.
  - destruct o as [[err|]|reason]; simpl; intros Hx; try congruence.
    + split; [ reflexivity | ].
      destruct (Hfail ltac:(simpl; congruence)) as (pre & str & post & Hs).
      exists pre, str, post. exact Hs.
    + split; [ reflexivity | ].
      destruct (Hfail ltac:(simpl; congruence)) as (pre & str & post & Hs).
      exists pre, str, post. exact Hs.
Qed.

(** ** The errors of a field conversion *)

Lemma range_strs_error (P : error -> Prop)
    (f : value -> string -> value * outcome) :
  (forall e str err, snd (f e str) = Returns (Some err) -> P err) ->
  forall strs i slice err,
    snd (range_strs f i strs slice) = Returns (Some err) -> P err.
Proof.
  intros Hf. induction strs as [| str strs IH]; intros i slice err Hr.
  - discriminate Hr.
  - simpl in Hr. destruct (slice !! i) as [e|]; [ | discriminate Hr ].
    destruct (f e str) as [e' o] eqn:Hfe.
    destruct o as [[err'|]|reason].
    + simpl in Hr. injection Hr as <-. apply (Hf e str). rewrite Hfe. reflexivity.
    + exact (IH _ _ _ Hr).
    + discriminate Hr.
Qed.

Lemma unmarshalField_errors {lib : GoLib} (t : rtype) :
  forall (v : value) (params : gmap string string)
         (multiParam : gmap string (list string)) (param : string) (e : error),
    snd (unmarshalField t v params multiParam param) = Returns (Some e) ->
    conversion_error e.
Proof.
  induction t as [k d | elem IH | elem IH | name];
    intros v params multiParam param e He.
  - destruct k; simpl in He; try discriminate He;
      unfold map_lookup_ok in He; destruct (params !! param) as [str|];
      simpl in He; try discriminate He;
      unfold parseInt64Param, parseUint64Param, parseFloat64Param in He;
      simpl in He;
      match type of He with
      | context [strconv_ParseInt ?s] => destruct (strconv_ParseInt s)
      | context [strconv_ParseUint ?s] => destruct (strconv_ParseUint s)
      | context [strconv_ParseFloat ?s] => destruct (strconv_ParseFloat s)
      end;
      simpl in He; try discriminate He;
      injection He as <-; left; eexists; reflexivity.
  - simpl in He. destruct (params !! param) as [val|]; [ | discriminate He ].
    destruct elem as [k' d' | elem' | elem' | name]; try destruct k';
      simpl in He; try discriminate He.
    + destruct d'; discriminate He.
    + destruct (String.eqb name "time.Time"); [ | discriminate He ].
      destruct (time_Parse time_RFC3339 val); [ discriminate He | ].
      injection He as <-. right. eexists; reflexivity.
  - simpl in He. destruct (multiParam !! param) as [strs|]; [ | discriminate He ].
    destruct (range_strs _ 0 strs _) as [slice' o] eqn:Hloop.
    destruct o as [[err|]|reason]; simpl in He; try discriminate He.
    injection He as <-.
    eapply (range_strs_error conversion_error); [ | rewrite Hloop; reflexivity ].
    intros e0 str err0 Hx. exact (IH _ _ _ _ _ Hx).
  - discriminate He.
Qed.

(** ** Annotations *)

Lemma eqb_empty_false (s : string) : s <> EmptyString -> String.eqb s EmptyString = false.
Proof. intros Hs. apply String.eqb_neq. exact Hs. Qed.

Lemma unmarshalEvent_field_two {lib : GoLib} (req : APIGatewayProxyRequest)
    (f : StructField) (v : value) (c0 c1 : string) :
  strings_Split (lambdaTag f) "." = [c0; c1] ->
  unmarshalEvent_field req f v
  = match source_maps req c0 with
    | Some (sourceMap, multiMap) =>
        unmarshalField (Type_ f) v sourceMap multiMap c1
    | None => (v, Returns (Some (UnknownSourceKind c0 (Name f))))
    end.
Proof.
  intros Hsplit. unfold unmarshalEvent_field.
  destruct (String.eqb (lambdaTag f) EmptyString) eqn:Hempty.
  - apply String.eqb_eq in Hempty. rewrite Hempty in Hsplit. discriminate Hsplit.
  - rewrite Hsplit. reflexivity.
Qed.

(** C2, as amended. The annotation of a field is rejected with the
    invalid-tag error exactly when splitting it on [.] does not give two
    components. Whether a component is empty is not looked at: with an
    empty source component the field is rejected by the dispatch on the
    source, with the error of an unknown source; with an empty key the
    field is bound to the key that is the empty string. *)
Theorem annotation_components {lib : GoLib} (req : APIGatewayProxyRequest)
    (f : StructField) (v : value) :
  lambdaTag f <> EmptyString ->
  (snd (unmarshalEvent_field req f v)
   = Returns (Some (InvalidAnnotation (Name f)))
   <-> length (strings_Split (lambdaTag f) ".") <> 2%nat)
  /\ (forall key,
        strings_Split (lambdaTag f) "." = [EmptyString; key] ->
        unmarshalEvent_field req f v
        = (v, Returns (Some (UnknownSourceKind EmptyString (Name f)))))
  /\ (forall location sourceMap multiMap,
        strings_Split (lambdaTag f) "." = [location; EmptyString] ->
        source_maps req location = Some (sourceMap, multiMap) ->
        unmarshalEvent_field req f v
        = unmarshalField (Type_ f) v sourceMap multiMap EmptyString).
Proof.
  intros Htag. split; [ | split ].
  - unfold unmarshalEvent_field. rewrite (eqb_empty_false _ Htag).
    destruct (Nat.eqb (length (strings_Split (lambdaTag f) ".")) 2) eqn:Hlen;
      simpl.
    + apply Nat.eqb_eq in Hlen. split; [ | intros Hne; contradiction ].
      intros Hres. exfalso.
      destruct (source_maps req _) as [[sourceMap multiMap]|].
      * apply unmarshalField_errors in Hres.
        destruct Hres as [[msg Hm] | [val Hv]]; discriminate.
      * simpl in Hres. discriminate Hres.
    + apply Nat.eqb_neq in Hlen. split; [ intros _; exact Hlen | reflexivity ].
  - intros key Hsplit.
    rewrite (unmarshalEvent_field_two req f v _ _ Hsplit). reflexivity.
  - intros location sourceMap multiMap Hsplit Hmaps.
    rewrite (unmarshalEvent_field_two req f v _ _ Hsplit), Hmaps. reflexivity.
Qed.

Lemma annotation_components_witness :
  (snd (unmarshalEvent_field (lib := plain_lib)
          (query_request {[ "id" := "7" ]} ∅)
          (mkField "ID" "query.id.x" (Prim reflect_String None)) (VString ""))
   = Returns (Some (InvalidAnnotation "ID"))
   <-> length (strings_Split "query.id.x" ".") <> 2%nat)
  /\ (forall key,
        strings_Split "query.id.x" "." = [EmptyString; key] ->
        unmarshalEvent_field (lib := plain_lib)
          (query_request {[ "id" := "7" ]} ∅)
          (mkField "ID" "query.id.x" (Prim reflect_String None)) (VString "")
        = (VString "", Returns (Some (UnknownSourceKind EmptyString "ID"))))
  /\ (forall location sourceMap multiMap,
        strings_Split "query.id.x" "." = [location; EmptyString] ->
        source_maps (query_request {[ "id" := "7" ]} ∅) location
        = Some (sourceMap, multiMap) ->
        unmarshalEvent_field (lib := plain_lib)
          (query_request {[ "id" := "7" ]} ∅)
          (mkField "ID" "query.id.x" (Prim reflect_String None)) (VString "")
        = unmarshalField (lib := plain_lib) (Prim reflect_String None)
            (VString "") sourceMap multiMap EmptyString).
Proof.
  apply (annotation_components (lib := plain_lib)
           (query_request {[ "id" := "7" ]} ∅)
           (mkField "ID" "query.id.x" (Prim reflect_String None)) (VString "")).
  discriminate.
Defined.

(** C2 as stated fails on an empty component. The annotation
    [query.] splits into two components and is accepted: the field is bound
    to the value of the empty key, here absent. The annotation [.id] is
    rejected, but as an unknown source, not as an invalid annotation. *)
Lemma empty_component_is_not_invalid_annotation :
  strings_Split "query." "." = ["query"; EmptyString]
  /\ unmarshalEvent_field (lib := plain_lib)
       (query_request {[ "search" := "go" ]} ∅)
       (mkField "Search" "query." (Prim reflect_String None)) (VString "x")
     = (VString "", Returns None)
  /\ strings_Split ".id" "." = [EmptyString; "id"]
  /\ unmarshalEvent_field (lib := plain_lib)
       (query_request {[ "id" := "7" ]} ∅)
       (mkField "ID" ".id" (Prim reflect_String None)) (VString "x")
     = (VString "x", Returns (Some (UnknownSourceKind EmptyString "ID")))
  /\ UnknownSourceKind EmptyString "ID" <> InvalidAnnotation "ID".
Proof. repeat split; try reflexivity. discriminate. Qed.

(** ** Sequence fields bound to the path *)

(** C4, as amended. A sequence field whose annotation names the source
    [path] is not an error: the path has no multi-valued map, the key
    counts as absent, and the field is left as it was. *)
Theorem path_sequence_field_is_skipped {lib : GoLib} (req : APIGatewayProxyRequest)
    (f : StructField) (v : value) (elem : rtype) (key : string) :
  Type_ f = SliceOf elem ->
  strings_Split (lambdaTag f) "." = ["path"; key] ->
  unmarshalEvent_field req f v = (v, Returns None).
Proof.
  intros Hty Hsplit.
  rewrite (unmarshalEvent_field_two req f v _ _ Hsplit), Hty.
  simpl. rewrite lookup_empty. reflexivity.
Qed.

Lemma path_sequence_field_is_skipped_witness :
  unmarshalEvent_field (lib := plain_lib)
    (mkRequest ∅ ∅ {[ "ids" := "1" ]} ∅ ∅ EmptyString false)
    (mkField "IDs" "path.ids" (SliceOf (Prim reflect_String None)))
    (VSlice None)
  = (VSlice None, Returns None).
Proof.
  exact (path_sequence_field_is_skipped (lib := plain_lib)
           (mkRequest ∅ ∅ {[ "ids" := "1" ]} ∅ ∅ EmptyString false)
           (mkField "IDs" "path.ids" (SliceOf (Prim reflect_String None)))
           (VSlice None) (Prim reflect_String None) "ids" eq_refl eq_refl).
Defined.

(** C4 as stated fails: binding a record whose only field is a
    sequence annotated with [path.ids] returns no error at all. *)
Lemma path_sequence_field_returns_nil :
  UnmarshalRequest (lib := plain_lib)
    (mkRequest ∅ ∅ {[ "ids" := "1" ]} ∅ ∅ EmptyString false) false
    (target_ptr (pointee_struct
       [(mkField "IDs" "path.ids" (SliceOf (Prim reflect_String None)),
         VSlice None)]))
  = (target_ptr (pointee_struct
       [(mkField "IDs" "path.ids" (SliceOf (Prim reflect_String None)),
         VSlice None)]),
     Returns None).
Proof. reflexivity. Qed.

(** ** The target *)

(** C7, as amended. For a target that is not a non-nil pointer: without
    the body, the call fails with the invalid-target error, which carries
    no status; with the body, [unmarshalBody] runs first and fails on such
    a target itself, so the call returns its error (a bad request, or the
    error of the base64 decoding) and never the invalid-target error. *)
Theorem invalid_target {lib : GoLib} (req : APIGatewayProxyRequest) (tgt : target) :
  nonnil_pointer tgt = false ->
  UnmarshalRequest req false tgt = (tgt, Returns (Some InvalidTarget))
  /\ bad_request InvalidTarget = false
  /\ exists e,
       UnmarshalRequest req true tgt = (tgt, Returns (Some e))
       /\ e <> InvalidTarget
       /\ (bad_request e = true \/ e = DecodingBody).
Proof.
  intros Hnot. split; [ | split; [ reflexivity | ] ].
  - destruct tgt; try discriminate Hnot; reflexivity.
  - unfold UnmarshalRequest, unmarshalBody, json_Unmarshal.
    destruct (IsBase64Encoded req).
    + destruct (base64_DecodeString (Body req)) as [body|].
      * destruct (json_checkValid body) as [msg|];
          [ | destruct tgt; try discriminate Hnot ];
          (eexists; split; [ reflexivity | split; [ discriminate | left; reflexivity ] ]).
      * eexists; split; [ reflexivity | split; [ discriminate | right; reflexivity ] ].
    + destruct (json_checkValid (Body req)) as [msg|];
        [ | destruct tgt; try discriminate Hnot ];
        (eexists; split; [ reflexivity | split; [ discriminate | left; reflexivity ] ]).
Qed.

Lemma invalid_target_witness :
  UnmarshalRequest (lib := plain_lib) (query_request ∅ ∅) false
    (target_value "main.Input")
  = (target_value "main.Input", Returns (Some InvalidTarget))
  /\ bad_request InvalidTarget = false
  /\ exists e,
       UnmarshalRequest (lib := plain_lib) (query_request ∅ ∅) true
         (target_value "main.Input")
       = (target_value "main.Input", Returns (Some e))
       /\ e <> InvalidTarget
       /\ (bad_request e = true \/ e = DecodingBody).
Proof.
  exact (invalid_target (lib := plain_lib) (query_request ∅ ∅)
           (target_value "main.Input") eq_refl).
Defined.

(** C7 as stated fails when the body is asked for: with the body
    [{}] and a target that is not a pointer, the call returns a bad request
    about the body, not the invalid-target error. *)
Lemma invalid_target_with_body_is_bad_request :
  UnmarshalRequest (lib := plain_lib)
    (mkRequest ∅ ∅ ∅ ∅ ∅ "{}" false) true (target_value "main.Input")
  = (target_value "main.Input",
     Returns (Some (HTTPError http_StatusBadRequest
       "invalid request body: json: Unmarshal(non-pointer main.Input)")))
  /\ HTTPError http_StatusBadRequest
       "invalid request body: json: Unmarshal(non-pointer main.Input)"
     <> InvalidTarget.
Proof. split; [ reflexivity | discriminate ]. Qed.

(** * Further properties *)

(** ** What [boolRegex] matches *)

Lemma prefix_drop_all (p s : string) :
  String.prefix p s = true ->
  string_drop (String.length p) s = EmptyString ->
  s = p.
Proof.
  revert s. induction p as [| c p IH]; intros s Hpre Hdrop.
  - simpl in Hdrop. exact Hdrop.
  - destruct s as [| c' s]; [ discriminate Hpre | ].
    simpl in Hpre, Hdrop. destruct (Ascii.ascii_dec c c') as [->|Hne].
    + f_equal. apply IH; assumption.
    + discriminate Hpre.
Qed.

Lemma prefix_refl (p : string) : String.prefix p p = true.
Proof.
  induction p as [| c p IH]; simpl; [ reflexivity | ].
  destruct (Ascii.ascii_dec c c); [ exact IH | contradiction ].
Qed.

Lemma drop_length (p : string) : string_drop (String.length p) p = EmptyString.
Proof. induction p as [| c p IH]; simpl; [ reflexivity | exact IH ]. Qed.

(** A literal followed by the end of the text matches that text only. *)
Lemma literal_at_end (p : string) (i : nat) (s : string) :
  matches_at (re_Concat (re_Literal p) re_EndText) (i, s) = String.eqb p s.
Proof.
  unfold matches_at. simpl.
  destruct (String.prefix p s) eqn:Hpre; simpl.
  - destruct (string_drop (String.length p) s) eqn:Hdrop; simpl.
    + symmetry. apply String.eqb_eq. symmetry.
      apply prefix_drop_all; assumption.
    + symmetry. apply String.eqb_neq. intros ->.
      rewrite drop_length in Hdrop. discriminate Hdrop.
  - symmetry. apply String.eqb_neq. intros ->.
    rewrite prefix_refl in Hpre. discriminate Hpre.
Qed.

Lemma literal_anywhere (p : string) (i : nat) (s : string) :
  matches_at (re_Literal p) (i, s) = String.prefix p s.
Proof. unfold matches_at. simpl. destruct (String.prefix p s); reflexivity. Qed.

Lemma alternate_matches (r1 r2 : regexp) (p : nat * string) :
  matches_at (re_Alternate r1 r2) p = matches_at r1 p || matches_at r2 p.
Proof.
  unfold matches_at. simpl.
  destruct (re_step r1 p); simpl; [ | reflexivity ].
  destruct (re_step r2 p); reflexivity.
Qed.

Lemma boolRegex_at (i : nat) (s : string) :
  matches_at boolRegex (i, s)
  = Nat.eqb i 0 && String.prefix "1" s
    || String.prefix "true" s || String.prefix "on" s
    || String.eqb "enabled" s.
Proof.
  unfold boolRegex. rewrite !alternate_matches, literal_at_end, !literal_anywhere.
  replace (matches_at (re_Concat re_BeginText (re_Literal "1")) (i, s))
    with (Nat.eqb i 0 && String.prefix "1" s).
  - rewrite !orb_assoc. reflexivity.
  - unfold matches_at. cbn [re_step fst snd].
    destruct (Nat.eqb i 0); cbn [flat_map andb re_step fst snd];
      [ | reflexivity ].
    destruct (String.prefix "1" s); reflexivity.
Qed.

Lemma boolRegex_later (s : string) : forall i : nat,
  search_from boolRegex (S i) s
  = contains "true" s || contains "on" s || ends_with "enabled" s.
Proof.
  induction s as [| c s IH]; intros i.
  - reflexivity.
  - cbn [search_from contains ends_with]. rewrite IH, boolRegex_at.
    cbn [Nat.eqb andb orb].
    destruct (String.prefix "true" (String c s)),
             (String.prefix "on" (String c s)),
             (String.eqb "enabled" (String c s)),
             (contains "true" s), (contains "on" s), (ends_with "enabled" s);
      reflexivity.
Qed.

(** [boolRegex] matches the texts that start with [1], hold [true] or [on]
    somewhere, or end with [enabled]: the anchors of the pattern bind to
    its first and its last alternative only. *)
Theorem boolRegex_matches (s : string) :
  regexp_MatchString boolRegex s
  = String.prefix "1" s || contains "true" s || contains "on" s
    || ends_with "enabled" s.
Proof.
  unfold regexp_MatchString. destruct s as [| c s].
  - reflexivity.
  - cbn [search_from contains ends_with].
    rewrite boolRegex_later, boolRegex_at. cbn [Nat.eqb andb].
    destruct (String.prefix "1" (String c s)),
             (String.prefix "true" (String c s)),
             (String.prefix "on" (String c s)),
             (String.eqb "enabled" (String c s)),
             (contains "true" s), (contains "on" s), (ends_with "enabled" s);
      reflexivity.
Qed.

(** A boolean field never fails, and it is set to [true] when the text,
    in lower case, is one of the four tokens of the documentation. *)
Theorem bool_field_tokens {lib : GoLib} (d : option string) (v : value)
    (params : gmap string string) (multiParam : gmap string (list string))
    (param : string) :
  snd (unmarshalField (Prim reflect_Bool d) v params multiParam param)
  = Returns None
  /\ forall str,
       params !! param = Some str ->
       In (strings_ToLower str) ["1"; "true"; "on"; "enabled"] ->
       unmarshalField (Prim reflect_Bool d) v params multiParam param
       = (VBool true, Returns None).
Proof.
  split; [ reflexivity | ].
  intros str Hpres Hin. simpl. unfold map_index. rewrite Hpres. simpl.
  destruct Hin as [<- | [<- | [<- | [<- | []]]]]; reflexivity.
Qed.

(** ** Optional fields: what holds of them *)

(** An optional field whose key is absent is left as it was, whatever it
    points to, and the call returns no error. *)
Theorem optional_absent_is_unset {lib : GoLib} (elem : rtype) (v : value)
    (params : gmap string string) (multiParam : gmap string (list string))
    (param : string) :
  params !! param = None ->
  unmarshalField (PtrTo elem) v params multiParam param = (v, Returns None).
Proof. intros Habs. simpl. rewrite Habs. reflexivity. Qed.

Lemma optional_absent_is_unset_witness :
  unmarshalField (lib := plain_lib) (PtrTo (Prim reflect_Int None)) (VPtr None)
    {[ "page" := "2" ]} ∅ "count"
  = (VPtr None, Returns None).
Proof.
  exact (optional_absent_is_unset (lib := plain_lib) (Prim reflect_Int None)
           (VPtr None) {[ "page" := "2" ]} ∅ "count" eq_refl).
Defined.

(** An optional timestamp whose key is present holds the instant
    [time.Parse] reads from the text in the RFC 3339 layout; when the text
    does not parse, the error of [time.Parse] is returned as it is, which
    is not a bad request, and the field is left as it was. *)
Theorem optional_timestamp {lib : GoLib} (v : value) (params : gmap string string)
    (multiParam : gmap string (list string)) (param val : string) :
  params !! param = Some val ->
  (forall t, time_Parse time_RFC3339 val = Some t ->
     unmarshalField (PtrTo time_Time_type) v params multiParam param
     = (VPtr (Some (VTime t)), Returns None))
  /\ (time_Parse time_RFC3339 val = None ->
      unmarshalField (PtrTo time_Time_type) v params multiParam param
      = (v, Returns (Some (time_ParseError time_RFC3339 val)))
      /\ bad_request (time_ParseError time_RFC3339 val) = false).
Proof.
  intros Hpres. split.
  - intros t Ht. simpl. rewrite Hpres, Ht. reflexivity.
  - intros Hnone. simpl. rewrite Hpres, Hnone. split; reflexivity.
Qed.

Lemma optional_timestamp_witness :
  (forall t, time_Parse (GoLib := plain_lib) time_RFC3339 "yesterday" = Some t ->
     unmarshalField (lib := plain_lib) (PtrTo time_Time_type) (VPtr None)
       {[ "since" := "yesterday" ]} ∅ "since"
     = (VPtr (Some (VTime t)), Returns None))
  /\ (time_Parse (GoLib := plain_lib) time_RFC3339 "yesterday" = None ->
      unmarshalField (lib := plain_lib) (PtrTo time_Time_type) (VPtr None)
        {[ "since" := "yesterday" ]} ∅ "since"
      = (VPtr None, Returns (Some (time_ParseError time_RFC3339 "yesterday")))
      /\ bad_request (time_ParseError time_RFC3339 "yesterday") = false).
Proof.
  exact (optional_timestamp (lib := plain_lib) (VPtr None)
           {[ "since" := "yesterday" ]} ∅ "since" "yesterday" eq_refl).
Defined.

(** ** Scalar fields: the errors name the key *)

(** A present text that does not parse as a number of the field's kind is
    a bad request whose message starts with the key; the field is left as
    it was. *)
Theorem numeric_error_names_key {lib : GoLib} (k : Kind) (d : option string)
    (v : value) (params : gmap string string)
    (multiParam : gmap string (list string)) (param str : string) :
  params !! param = Some str ->
  (signed_kind k = true -> strconv_ParseInt str = None ->
   unmarshalField (Prim k d) v params multiParam param
   = (v, Returns (Some (HTTPError http_StatusBadRequest
                          (param +:+ " must be a valid integer")))))
  /\ (unsigned_kind k = true -> strconv_ParseUint str = None ->
      unmarshalField (Prim k d) v params multiParam param
      = (v, Returns (Some (HTTPError http_StatusBadRequest
                             (param +:+ " must be a valid, positive integer")))))
  /\ (float_kind k = true -> strconv_ParseFloat str = None ->
      unmarshalField (Prim k d) v params multiParam param
      = (v, Returns (Some (HTTPError http_StatusBadRequest
                             (param +:+ " must be a valid floating point number"))))).
Proof.
  intros Hpres. repeat split; intros Hk Hparse;
    destruct k; try discriminate Hk; simpl;
    unfold map_lookup_ok, parseInt64Param, parseUint64Param, parseFloat64Param;
    rewrite Hpres; simpl; rewrite Hparse; reflexivity.
Qed.

Lemma numeric_error_names_key_witness :
  (signed_kind reflect_Int = true -> strconv_ParseInt "abc" = None ->
   unmarshalField (lib := plain_lib) (Prim reflect_Int None) (VInt 0)
     {[ "size" := "abc" ]} ∅ "size"
   = (VInt 0, Returns (Some (HTTPError http_StatusBadRequest
                               ("size" +:+ " must be a valid integer")))))
  /\ (unsigned_kind reflect_Int = true -> strconv_ParseUint "abc" = None ->
      unmarshalField (lib := plain_lib) (Prim reflect_Int None) (VInt 0)
        {[ "size" := "abc" ]} ∅ "size"
      = (VInt 0, Returns (Some (HTTPError http_StatusBadRequest
                         ("size" +:+ " must be a valid, positive integer")))))
  /\ (float_kind reflect_Int = true ->
      strconv_ParseFloat (GoLib := plain_lib) "abc" = None ->
      unmarshalField (lib := plain_lib) (Prim reflect_Int None) (VInt 0)
        {[ "size" := "abc" ]} ∅ "size"
      = (VInt 0, Returns (Some (HTTPError http_StatusBadRequest
                   ("size" +:+ " must be a valid floating point number"))))).
Proof.
  exact (numeric_error_names_key (lib := plain_lib) reflect_Int None (VInt 0)
           {[ "size" := "abc" ]} ∅ "size" "abc" eq_refl).
Defined.

(** ** The record binder *)

(** A field without annotation is skipped. *)
Theorem unannotated_field_is_skipped {lib : GoLib} (req : APIGatewayProxyRequest)
    (name : string) (t : rtype) (v : value) :
  unmarshalEvent_field req (mkField name EmptyString t) v = (v, Returns None).
Proof. reflexivity. Qed.

Lemma unmarshalEvent_fields_app {lib : GoLib} (req : APIGatewayProxyRequest)
    (pre post : list (StructField * value)) :
  unmarshalEvent_fields req (pre ++ post)
  = match unmarshalEvent_fields req pre with
    | (pre', Returns None) =>
        let '(post', o) := unmarshalEvent_fields req post in (pre' ++ post', o)
    | (pre', o) => (pre' ++ post, o)
    end.
Proof.
  induction pre as [| [f v] pre IH]; simpl.
  - destruct (unmarshalEvent_fields req post) as [post' o]. reflexivity.
  - destruct (unmarshalEvent_field req f v) as [v' o].
    destruct o as [[err|]|reason]; try reflexivity.
    rewrite IH. destruct (unmarshalEvent_fields req pre) as [pre' o'].
    destruct o' as [[err|]|reason]; try reflexivity.
    destruct (unmarshalEvent_fields req post) as [post' o'']. reflexivity.
Qed.

(** The binder is fail-fast and does not roll back: when the fields [pre]
    bind without error and the next field does not, the call returns what
    that field returned; the fields of [pre] stay bound and the fields
    after the failing one are left as they were. *)
Theorem record_binder_fail_fast {lib : GoLib} (req : APIGatewayProxyRequest)
    (pre pre' post : list (StructField * value)) (f : StructField)
    (v v' : value) (o : outcome) :
  unmarshalEvent_fields req pre = (pre', Returns None) ->
  unmarshalEvent_field req f v = (v', o) ->
  o <> Returns None ->
  unmarshalEvent_fields req (pre ++ (f, v) :: post)
  = (pre' ++ (f, v') :: post, o).
Proof.
  intros Hpre Hf Ho. rewrite unmarshalEvent_fields_app, Hpre. simpl.
  rewrite Hf. destruct o as [[err|]|reason]; try reflexivity. congruence.
Qed.

Lemma record_binder_fail_fast_witness :
  unmarshalEvent_fields (lib := plain_lib)
    (query_request {[ "page" := "2"; "size" := "abc"; "q" := "go" ]} ∅)
    ([(mkField "Page" "query.page" (Prim reflect_Uint64 None), VUint 0)]
     ++ (mkField "Size" "query.size" (Prim reflect_Int None), VInt 0)
     :: [(mkField "Search" "query.q" (Prim reflect_String None), VString "")])
  = ([(mkField "Page" "query.page" (Prim reflect_Uint64 None),
       SetUint reflect_Uint64 2)]
     ++ (mkField "Size" "query.size" (Prim reflect_Int None), VInt 0)
     :: [(mkField "Search" "query.q" (Prim reflect_String None), VString "")],
     Returns (Some (HTTPError http_StatusBadRequest
                      "size must be a valid integer"))).
Proof.
  apply (record_binder_fail_fast (lib := plain_lib)); [ reflexivity .. | discriminate ].
Defined.

(** ** The scenarios of the specification *)

(** A page number and a list of tags from the query string. *)
Theorem scenario_page_and_tags {lib : GoLib} :
  UnmarshalRequest
    (query_request {[ "page" := "2" ]} {[ "tags" := ["a"; "b"] ]}) false
    (target_ptr (pointee_struct
       [(mkField "Page" "query.page" (Prim reflect_Uint64 None), VUint 0);
        (mkField "Tags" "query.tags" (SliceOf (Prim reflect_String None)),
         VSlice None)]))
  = (target_ptr (pointee_struct
       [(mkField "Page" "query.page" (Prim reflect_Uint64 None), VUint 2);
        (mkField "Tags" "query.tags" (SliceOf (Prim reflect_String None)),
         VSlice (Some [VString "a"; VString "b"]))]),
     Returns None).
Proof. reflexivity. Qed.

(** A flag from a header, and a size that is not a number. *)
Theorem scenario_flag_and_bad_size {lib : GoLib} :
  UnmarshalRequest
    (mkRequest ∅ ∅ ∅ {[ "X-Flag" := "on" ]} ∅ EmptyString false) false
    (target_ptr (pointee_struct
       [(mkField "Flag" "header.X-Flag" (Prim reflect_Bool None), VBool false)]))
  = (target_ptr (pointee_struct
       [(mkField "Flag" "header.X-Flag" (Prim reflect_Bool None), VBool true)]),
     Returns None)
  /\ UnmarshalRequest (query_request {[ "size" := "abc" ]} ∅) false
       (target_ptr (pointee_struct
          [(mkField "Size" "query.size" (Prim reflect_Int None), VInt 0)]))
     = (target_ptr (pointee_struct
          [(mkField "Size" "query.size" (Prim reflect_Int None), VInt 0)]),
        Returns (Some (HTTPError http_StatusBadRequest
                         "size must be a valid integer"))).
Proof. split; reflexivity. Qed.

(** ** Elements and scalar fields *)

(** An element of a sequence of a scalar kind converts as a scalar field
    of that kind bound to the same text does: the one succeeds when the
    other does, and with the same value. *)
Theorem element_converts_as_scalar {lib : GoLib} (k : Kind) (d : option string)
    (v : value) (params : gmap string string)
    (multiParam : gmap string (list string)) (param str : string) :
  scalar_kind k = true ->
  params !! param = Some str ->
  (snd (convert_element (Prim k d) str) = Returns None
   <-> snd (unmarshalField (Prim k d) v params multiParam param) = Returns None)
  /\ (snd (convert_element (Prim k d) str) = Returns None ->
      fst (convert_element (Prim k d) str)
      = fst (unmarshalField (Prim k d) v params multiParam param)).
Proof.
  intros Hk Hpres. unfold convert_element.
  assert (Hs : ({[ "param" := str ]} : gmap string string) !! "param" = Some str)
    by apply lookup_singleton_eq.
  destruct k; try discriminate Hk; simpl;
    unfold map_lookup_ok, map_index, parseInt64Param, parseUint64Param,
      parseFloat64Param;
    rewrite Hpres, Hs; simpl;
    try match goal with
        | |- context [strconv_ParseInt ?s] => destruct (strconv_ParseInt s)
        | |- context [strconv_ParseUint ?s] => destruct (strconv_ParseUint s)
        | |- context [strconv_ParseFloat ?s] => destruct (strconv_ParseFloat s)
        end;
    simpl; (split; [ split; intros Hx; first [ reflexivity | discriminate Hx ]
                   | intros Hx; first [ reflexivity | discriminate Hx ] ]).
Qed.

Lemma element_converts_as_scalar_witness :
  (snd (convert_element (lib := plain_lib) (Prim reflect_Int8 None) "12")
   = Returns None
   <-> snd (unmarshalField (lib := plain_lib) (Prim reflect_Int8 None) (VInt 5)
              {[ "n" := "12" ]} ∅ "n") = Returns None)
  /\ (snd (convert_element (lib := plain_lib) (Prim reflect_Int8 None) "12")
      = Returns None ->
      fst (convert_element (lib := plain_lib) (Prim reflect_Int8 None) "12")
      = fst (unmarshalField (lib := plain_lib) (Prim reflect_Int8 None) (VInt 5)
               {[ "n" := "12" ]} ∅ "n")).
Proof.
  exact (element_converts_as_scalar (lib := plain_lib) reflect_Int8 None (VInt 5)
           {[ "n" := "12" ]} ∅ "n" "12" eq_refl eq_refl).
Defined.

(** ** The target, continued *)

(** The check of the target asks for a non-nil pointer only: a pointer to
    something that is not a struct passes it, and the loop over the fields
    panics. *)
Theorem pointer_to_non_struct_panics {lib : GoLib}
    (req : APIGatewayProxyRequest) (tyname : string) :
  UnmarshalRequest req false (target_ptr (pointee_other tyname))
  = (target_ptr (pointee_other tyname),
     Panics "reflect: NumField of non-struct type").
Proof. reflexivity. Qed.

(** ** The errors of the field binder *)


(** * The record binder as a whole *)

(** ** What the loop keeps *)

(** Whatever the outcome, the loop over the fields keeps the descriptors
    of the fields (names, tags and types, in order), and a field without
    an annotation keeps its value. *)
Theorem record_binder_frame {lib : GoLib} (req : APIGatewayProxyRequest)
    (fields : list (StructField * value)) :
  map fst (fst (unmarshalEvent_fields req fields)) = map fst fields
  /\ forall (i : nat) (f : StructField) (v : value),
       fields !! i = Some (f, v) ->
       lambdaTag f = EmptyString ->
       fst (unmarshalEvent_fields req fields) !! i = Some (f, v).
Proof.
  induction fields as [| [f0 v0] fields [IHd IHv]]; simpl.
  - split; [ reflexivity | intros i f v Hi; discriminate Hi ].
  - destruct (unmarshalEvent_field req f0 v0) as [v0' o] eqn:Hf0.
    assert (Hskip : lambdaTag f0 = EmptyString -> v0' = v0).
    { intros Htag. unfold unmarshalEvent_field in Hf0. rewrite Htag in Hf0.
      simpl in Hf0. congruence. }
    destruct o as [[err|]|reason];
      try destruct (unmarshalEvent_fields req fields) as [rest' o'];
      simpl in *; (split; [ congruence | ]);
      intros [| i] f v Hi Htag; simpl in *;
      try (injection Hi as <- <-; rewrite (Hskip Htag); reflexivity);
      try exact Hi; try exact (IHv i f v Hi Htag).
Qed.

(** ** Success *)

Lemma unmarshalEvent_fields_cons {lib : GoLib} (req : APIGatewayProxyRequest)
    (fv : StructField * value) (rest : list (StructField * value)) :
  unmarshalEvent_fields req (fv :: rest)
  = match unmarshalEvent_field req (fst fv) (snd fv) with
    | (v', Returns None) =>
        let '(rest', o') := unmarshalEvent_fields req rest in
        ((fst fv, v') :: rest', o')
    | (v', o) => ((fst fv, v') :: rest, o)
    end.
Proof. destruct fv as [f v]. reflexivity. Qed.

(** The loop returns [nil] exactly when the field binder returns [nil]
    for every field, each taken by itself; the record then holds, field by
    field, what the field binder makes of that field: the fields are bound
    independently of each other. *)
Theorem record_binder_success {lib : GoLib} (req : APIGatewayProxyRequest)
    (fields : list (StructField * value)) :
  (snd (unmarshalEvent_fields req fields) = Returns None
   <-> Forall (binds req) fields)
  /\ (snd (unmarshalEvent_fields req fields) = Returns None ->
      fst (unmarshalEvent_fields req fields) = map (bind_one req) fields).
Proof.
  induction fields as [| fv fields [IHiff IHmap]].
  - split; [ split; [ constructor | reflexivity ] | reflexivity ].
  - rewrite unmarshalEvent_fields_cons. unfold binds at 1, bind_one at 1.
    destruct (unmarshalEvent_field req (fst fv) (snd fv)) as [v' o] eqn:Hfv.
    assert (Hb : binds req fv <-> o = Returns None)
      by (unfold binds; rewrite Hfv; reflexivity).
    destruct o as [[err|]|reason].
    + split; [ split | ]; simpl; try discriminate.
      intros Hall. inversion Hall as [| ? ? H1 ?]; subst.
      apply Hb in H1. discriminate H1.
    + destruct (unmarshalEvent_fields req fields) as [rest' o'].
      simpl in *. split; [ split | ].
      * intros Ho. constructor; [ apply Hb; reflexivity | apply IHiff; exact Ho ].
      * intros Hall. inversion Hall; subst. apply IHiff. assumption.
      * intros Ho. rewrite (IHmap Ho). unfold bind_one at 1. rewrite Hfv.
        reflexivity.
    + split; [ split | ]; simpl; try discriminate.
      intros Hall. inversion Hall as [| ? ? H1 ?]; subst.
      apply Hb in H1. discriminate H1.
Qed.

(** ** Binding twice *)

Ltac settle_shape :=
  first [ eexists; eexists; right; intros ?; reflexivity
        | exists VOpaque; eexists; left; intros ?; reflexivity ].

(** What a field conversion does to the field does not depend on what the
    field held: either the field is left as it was, or it is set to a value
    that the request determines; and the outcome is determined by the
    request. *)
Lemma unmarshalField_shape {lib : GoLib} (t : rtype)
    (params : gmap string string) (multiParam : gmap string (list string))
    (param : string) :
  exists (w : value) (o : outcome),
    (forall v, unmarshalField t v params multiParam param = (v, o))
    \/ (forall v, unmarshalField t v params multiParam param = (w, o)).
Proof.
  destruct t as [k d | elem | elem | name].
  - destruct k; simpl; unfold map_lookup_ok; try settle_shape;
      destruct (params !! param) as [str|]; simpl; try settle_shape;
      unfold parseInt64Param, parseUint64Param, parseFloat64Param; simpl;
      match goal with
      | |- context [strconv_ParseInt ?s] => destruct (strconv_ParseInt s)
      | |- context [strconv_ParseUint ?s] => destruct (strconv_ParseUint s)
      | |- context [strconv_ParseFloat ?s] => destruct (strconv_ParseFloat s)
      end;
      settle_shape.
  - simpl. destruct (params !! param) as [val|]; [ | settle_shape ].
    destruct elem as [k' d' | elem' | elem' | name]; try destruct k';
      simpl; try settle_shape.
    + destruct d'; settle_shape.
    + destruct (String.eqb name "time.Time"); [ | settle_shape ].
      destruct (time_Parse time_RFC3339 val); settle_shape.
  - simpl. destruct (multiParam !! param) as [strs|]; [ | settle_shape ].
    destruct (range_strs _ 0 strs _) as [slice' o].
    destruct o as [[err|]|reason]; settle_shape.
  - settle_shape.
Qed.

Lemma unmarshalEvent_field_shape {lib : GoLib} (req : APIGatewayProxyRequest)
    (f : StructField) :
  exists (w : value) (o : outcome),
    (forall v, unmarshalEvent_field req f v = (v, o))
    \/ (forall v, unmarshalEvent_field req f v = (w, o)).
Proof.
  unfold unmarshalEvent_field.
  destruct (String.eqb (lambdaTag f) EmptyString); [ settle_shape | ].
  destruct (negb _); [ settle_shape | ].
  destruct (source_maps req _) as [[sourceMap multiMap]|];
    [ apply unmarshalField_shape | settle_shape ].
Qed.

Lemma unmarshalEvent_field_again {lib : GoLib} (req : APIGatewayProxyRequest)
    (f : StructField) (v : value) :
  unmarshalEvent_field req f (fst (unmarshalEvent_field req f v))
  = unmarshalEvent_field req f v.
Proof.
  destruct (unmarshalEvent_field_shape req f) as (w & o & [Hs | Hs]);
    rewrite !Hs; reflexivity.
Qed.

Lemma unmarshalEvent_fields_again {lib : GoLib} (req : APIGatewayProxyRequest)
    (fields : list (StructField * value)) :
  unmarshalEvent_fields req (fst (unmarshalEvent_fields req fields))
  = unmarshalEvent_fields req fields.
Proof.
  induction fields as [| [f v] fields IH]; [ reflexivity | ].
  cbn [unmarshalEvent_fields].
  pose proof (unmarshalEvent_field_again req f v) as Hf.
  destruct (unmarshalEvent_field req f v) as [v' o]. cbn [fst] in Hf.
  destruct o as [[err|]|reason].
  - cbn [fst unmarshalEvent_fields]. rewrite Hf. reflexivity.
  - destruct (unmarshalEvent_fields req fields) as [rest' o'].
    cbn [fst unmarshalEvent_fields] in *. rewrite Hf, IH. reflexivity.
  - cbn [fst unmarshalEvent_fields]. rewrite Hf. reflexivity.
Qed.

(** Binding is idempotent: binding the request a second time, to what the
    first call left in the target, leaves the target as the first call left
    it and has the outcome of the first call. *)
Theorem binding_is_idempotent {lib : GoLib} (req : APIGatewayProxyRequest)
    (tgt : target) :
  UnmarshalRequest req false (fst (UnmarshalRequest req false tgt))
  = UnmarshalRequest req false tgt.
Proof.
  unfold UnmarshalRequest, unmarshalEvent.
  destruct tgt as [| ty | ty | [fields | ty]]; try reflexivity.
  pose proof (unmarshalEvent_fields_again req fields) as Hagain.
  destruct (unmarshalEvent_fields req fields) as [fields' o]. simpl in *.
  rewrite Hagain. reflexivity.
Qed.

(** ** Panics *)





(** ** The errors of a call *)



(** * Numbers *)

(** ** The range of the parsers *)

Lemma digit_of_range (c : ascii) (d : Z) : digit_of c = Some d -> 0 <= d <= 9.
Proof.
  unfold digit_of. intros Hd.
  destruct (48 <=? Z.of_nat (nat_of_ascii c)) eqn:H1;
    destruct (Z.of_nat (nat_of_ascii c) <=? 57) eqn:H2;
    simpl in Hd; try discriminate Hd.
  injection Hd as <-. lia.
Qed.

Lemma parse_digits_lower (s : string) : forall acc n,
  0 <= acc -> parse_digits acc s = Some n -> acc <= n.
Proof.
  induction s as [| c s IH]; intros acc n Hacc Hp; simpl in Hp.
  - injection Hp as <-. lia.
  - destruct (digit_of c) as [d|] eqn:Hd; [ | discriminate Hp ].
    apply digit_of_range in Hd. apply IH in Hp; lia.
Qed.

Lemma strconv_ParseUint_range (s : string) (n : Z) :
  strconv_ParseUint s = Some n -> 0 <= n <= maxUint64.
Proof.
  unfold strconv_ParseUint. destruct s as [| c s]; [ discriminate | ].
  destruct (parse_digits 0 (String c s)) as [m|] eqn:Hp; [ | discriminate ].
  destruct (m <=? maxUint64) eqn:Hle; [ | discriminate ].
  intros Hn. injection Hn as <-. apply parse_digits_lower in Hp; lia.
Qed.

Lemma strconv_ParseInt_range (s : string) (x : Z) :
  strconv_ParseInt s = Some x -> - 2 ^ 63 <= x <= 2 ^ 63 - 1.
Proof.
  unfold strconv_ParseInt. destruct s as [| c s]; [ discriminate | ].
  set (digits := if Ascii.eqb c "+" || Ascii.eqb c "-" then s else String c s).
  destruct digits as [| c' s']; [ discriminate | ].
  destruct (parse_digits 0 (String c' s')) as [un|] eqn:Hp; [ | discriminate ].
  apply parse_digits_lower in Hp; [ | lia ].
  destruct (Ascii.eqb c "-").
  - destruct (un <=? 2 ^ 63) eqn:Hle; [ | discriminate ].
    intros Hx. injection Hx as <-. lia.
  - destruct (un <? 2 ^ 63) eqn:Hlt; [ | discriminate ].
    intros Hx. injection Hx as <-. lia.
Qed.

Lemma wrap_signed_small (w x : Z) :
  0 < w -> - 2 ^ (w - 1) <= x < 2 ^ (w - 1) -> wrap_signed w x = x.
Proof.
  intros Hw Hx. unfold wrap_signed.
  assert (H2 : 2 ^ w = 2 * 2 ^ (w - 1)).
  { replace w with (Z.succ (w - 1)) at 1 by lia. apply Z.pow_succ_r. lia. }
  rewrite Z.mod_small by lia. lia.
Qed.

Lemma wrap_unsigned_small (w x : Z) : 0 <= x < 2 ^ w -> wrap_unsigned w x = x.
Proof. intros Hx. unfold wrap_unsigned. apply Z.mod_small. exact Hx. Qed.

Lemma integer_write_small (k : Kind) (x : Z) :
  min_of k <= x <= max_of k -> integer_write k x = integer_value k x.
Proof.
  unfold min_of, max_of, integer_write, integer_value, SetInt, SetUint.
  pose proof (bits_pos k) as Hb. intros Hx. destruct (signed_kind k).
  - rewrite wrap_signed_small by lia. reflexivity.
  - rewrite wrap_unsigned_small by lia. reflexivity.
Qed.

Lemma parse_integer_range (k : Kind) (str : string) (x : Z) :
  narrow_kind k = false ->
  parse_integer k str = Some x ->
  min_of k <= x <= max_of k.
Proof.
  unfold parse_integer, min_of, max_of. intros Hk Hp.
  destruct (signed_kind k) eqn:Hs.
  - apply strconv_ParseInt_range in Hp.
    destruct k; try discriminate Hk; try discriminate Hs; simpl; lia.
  - apply strconv_ParseUint_range in Hp. unfold maxUint64 in Hp.
    destruct k; try discriminate Hk; try discriminate Hs; simpl; lia.
Qed.

Lemma integer_field_write {lib : GoLib} (k : Kind) (d : option string)
    (v : value) (params : gmap string string)
    (multiParam : gmap string (list string)) (param str : string) (x : Z) :
  integer_kind k = true ->
  params !! param = Some str ->
  parse_integer k str = Some x ->
  unmarshalField (Prim k d) v params multiParam param
  = (integer_write k x, Returns None).
Proof.
  unfold integer_kind, parse_integer, integer_write. intros Hk Hpres Hparse.
  destruct (signed_kind k) eqn:Hs.
  - now apply signed_field_write with (str := str).
  - now apply unsigned_field_write with (str := str).
Qed.

(** A field of an integer kind whose key is present with a text that
    parses to a number within the range of the kind holds exactly that
    number, and the call returns no error. For the kinds of 64 bits every
    text that parses is within the range. *)
Theorem integer_field_exact {lib : GoLib} (k : Kind) (d : option string)
    (v : value) (params : gmap string string)
    (multiParam : gmap string (list string)) (param str : string) (x : Z) :
  integer_kind k = true ->
  params !! param = Some str ->
  parse_integer k str = Some x ->
  (narrow_kind k = true -> min_of k <= x <= max_of k) ->
  unmarshalField (Prim k d) v params multiParam param
  = (integer_value k x, Returns None).
Proof.
  intros Hk Hpres Hparse Hrange.
  rewrite (integer_field_write k d v params multiParam param str x Hk Hpres Hparse).
  rewrite integer_write_small; [ reflexivity | ].
  destruct (narrow_kind k) eqn:Hn; [ exact (Hrange eq_refl) | ].
  exact (parse_integer_range k str x Hn Hparse).
Qed.

Lemma integer_field_exact_witness :
  unmarshalField (lib := plain_lib) (Prim reflect_Int64 None) (VInt 0)
    {[ "n" := "-9223372036854775808" ]} ∅ "n"
  = (VInt (-9223372036854775808), Returns None).
Proof.
  exact (integer_field_exact (lib := plain_lib) reflect_Int64 None (VInt 0)
           {[ "n" := "-9223372036854775808" ]} ∅ "n" "-9223372036854775808"
           (-9223372036854775808) eq_refl eq_refl eq_refl
           (fun H => False_ind _ (Bool.diff_false_true H))).
Defined.

(** ** Decimal texts *)

Lemma parse_digits_app (s1 s2 : string) : forall acc,
  parse_digits acc (s1 +:+ s2)
  = match parse_digits acc s1 with
    | Some a => parse_digits a s2
    | None => None
    end.
Proof.
  induction s1 as [| c s1 IH]; intros acc; simpl; [ reflexivity | ].
  destruct (digit_of c); [ apply IH | reflexivity ].
Qed.

Lemma digit_of_digit_char (d : Z) : 0 <= d <= 9 -> digit_of (digit_char d) = Some d.
Proof.
  intros Hd.
  assert (Hcases : d = 0 \/ d = 1 \/ d = 2 \/ d = 3 \/ d = 4 \/ d = 5 \/ d = 6
                   \/ d = 7 \/ d = 8 \/ d = 9) by lia.
  repeat destruct Hcases as [-> | Hcases]; try reflexivity.
  subst d. reflexivity.
Qed.

Lemma parse_format_digits (fuel : nat) : forall n,
  0 <= n < 10 ^ Z.of_nat fuel ->
  parse_digits 0 (format_digits fuel n) = Some n.
Proof.
  induction fuel as [| fuel IH]; intros n Hn.
  - simpl in Hn |- *. f_equal. lia.
  - cbn [format_digits]. destruct (n <? 10) eqn:Hlt.
    + apply Z.ltb_lt in Hlt. simpl. rewrite digit_of_digit_char by lia.
      reflexivity.
    + apply Z.ltb_ge in Hlt.
      rewrite Nat2Z.inj_succ, Z.pow_succ_r in Hn by lia.
      rewrite parse_digits_app, IH.
      * pose proof (Z.mod_pos_bound n 10) as Hm. pose proof (Z.div_mod n 10) as Hdm.
        simpl. rewrite digit_of_digit_char by lia. f_equal. lia.
      * split; [ apply Z.div_pos; lia | ].
        apply Z.div_lt_upper_bound; lia.
Qed.

Lemma format_digits_not_empty (fuel : nat) (n : Z) :
  format_digits (S fuel) n <> EmptyString.
Proof.
  cbn [format_digits]. destruct (n <? 10); [ discriminate | ].
  destruct (format_digits fuel (n / 10)); discriminate.
Qed.

Lemma strconv_ParseUint_digits (s : string) (n : Z) :
  s <> EmptyString -> parse_digits 0 s = Some n -> n <= maxUint64 ->
  strconv_ParseUint s = Some n.
Proof.
  intros Hs Hp Hn. unfold strconv_ParseUint.
  destruct s as [| c s]; [ contradiction | ].
  rewrite Hp. apply Z.leb_le in Hn. rewrite Hn. reflexivity.
Qed.

Lemma strconv_ParseInt_digits (s : string) (n : Z) :
  s <> EmptyString -> parse_digits 0 s = Some n -> n < 2 ^ 63 ->
  strconv_ParseInt s = Some n.
Proof.
  intros Hs Hp Hn. unfold strconv_ParseInt.
  destruct s as [| c s]; [ contradiction | ].
  assert (Hc : Ascii.eqb c "+" || Ascii.eqb c "-" = false).
  { simpl in Hp. destruct (digit_of c) as [d|] eqn:Hd; [ | discriminate Hp ].
    destruct (Ascii.eqb c "+") eqn:Hplus.
    - apply Ascii.eqb_eq in Hplus. subst c. discriminate Hd.
    - destruct (Ascii.eqb c "-") eqn:Hminus; [ | reflexivity ].
      apply Ascii.eqb_eq in Hminus. subst c. discriminate Hd. }
  rewrite Hc. apply orb_false_elim in Hc as [_ Hminus]. rewrite Hminus, Hp.
  apply Z.ltb_lt in Hn. rewrite Hn. reflexivity.
Qed.

Lemma strconv_ParseInt_negative (s : string) (n : Z) :
  s <> EmptyString -> parse_digits 0 s = Some n -> n <= 2 ^ 63 ->
  strconv_ParseInt (String "-" s) = Some (- n).
Proof.
  intros Hs Hp Hn. unfold strconv_ParseInt. simpl.
  destruct s as [| c s]; [ contradiction | ].
  rewrite Hp. apply Z.leb_le in Hn. rewrite Hn. reflexivity.
Qed.

Lemma parse_format_integer (k : Kind) (x : Z) :
  integer_kind k = true ->
  min_of k <= x <= max_of k ->
  parse_integer k (format_integer k x) = Some x.
Proof.
  unfold integer_kind, parse_integer, format_integer, min_of, max_of.
  intros Hk Hx.
  assert (Hbits : bits k <= 64) by (destruct k; simpl; lia).
  pose proof (bits_pos k) as Hpos.
  assert (H63 : 2 ^ (bits k - 1) <= 2 ^ 63) by (apply Z.pow_le_mono_r; lia).
  assert (H64 : 2 ^ bits k <= 2 ^ 64) by (apply Z.pow_le_mono_r; lia).
  assert (H20 : 2 ^ 64 < 10 ^ Z.of_nat 20) by (vm_compute; reflexivity).
  assert (Hpow : (2 ^ 63 < 2 ^ 64)) by (vm_compute; reflexivity).
  destruct (signed_kind k).
  - unfold strconv_FormatInt, strconv_FormatUint.
    destruct (x <? 0) eqn:Hneg.
    + apply Z.ltb_lt in Hneg.
      replace x with (- (- x)) at 2 by lia.
      apply strconv_ParseInt_negative;
        [ apply format_digits_not_empty | apply parse_format_digits; lia | lia ].
    + apply Z.ltb_ge in Hneg.
      apply strconv_ParseInt_digits;
        [ apply format_digits_not_empty | apply parse_format_digits; lia | lia ].
  - unfold strconv_FormatUint.
    apply strconv_ParseUint_digits;
      [ apply format_digits_not_empty | apply parse_format_digits; lia
      | unfold maxUint64; lia ].
Qed.

(** Numbers come through: a field of an integer kind whose key is present
    with the decimal text of a number within the range of the kind holds
    that number, and the call returns no error. *)
Theorem integer_field_round_trip {lib : GoLib} (k : Kind) (d : option string)
    (v : value) (params : gmap string string)
    (multiParam : gmap string (list string)) (param : string) (x : Z) :
  integer_kind k = true ->
  min_of k <= x <= max_of k ->
  params !! param = Some (format_integer k x) ->
  unmarshalField (Prim k d) v params multiParam param
  = (integer_value k x, Returns None).
Proof.
  intros Hk Hx Hpres.
  rewrite (integer_field_write k d v params multiParam param _ x Hk Hpres
             (parse_format_integer k x Hk Hx)).
  rewrite integer_write_small by exact Hx. reflexivity.
Qed.

Lemma integer_field_round_trip_witness :
  unmarshalField (lib := plain_lib) (Prim reflect_Int16 None) (VInt 0)
    {[ "n" := "-1234" ]} ∅ "n"
  = (VInt (-1234), Returns None).
Proof.
  apply (integer_field_round_trip (lib := plain_lib) reflect_Int16 None (VInt 0)
           {[ "n" := "-1234" ]} ∅ "n" (-1234)).
  - reflexivity.
  - vm_compute. split; discriminate.
  - reflexivity.
Defined.

(** * Annotations and their components *)

Lemma strings_Split_cons (c : ascii) (s : string) (sep : ascii) :
  strings_Split (String c s) sep
  = if Ascii.eqb c sep then EmptyString :: strings_Split s sep
    else match strings_Split s sep with
         | h :: t => String c h :: t
         | [] => [String c EmptyString]
         end.
Proof. reflexivity. Qed.

Lemma strings_Split_not_nil (s : string) (sep : ascii) : strings_Split s sep <> [].
Proof.
  induction s as [| c s IH]; [ discriminate | ].
  rewrite strings_Split_cons. destruct (Ascii.eqb c sep); [ discriminate | ].
  destruct (strings_Split s sep); [ contradiction | discriminate ].
Qed.

Lemma strings_Join_cons (e h : string) (t : list string) (sep : ascii) :
  strings_Join (e :: h :: t) sep = e +:+ String sep (strings_Join (h :: t) sep).
Proof. reflexivity. Qed.

(** [strings.Split] loses nothing: a text with [n] separators has [n + 1]
    components, none of which holds the separator, and joining them with
    the separator gives the text back. *)
Theorem strings_Split_Join (s : string) (sep : ascii) :
  length (strings_Split s sep) = S (count_byte sep s)
  /\ Forall (fun component => count_byte sep component = O) (strings_Split s sep)
  /\ strings_Join (strings_Split s sep) sep = s.
Proof.
  induction s as [| c s (IHlen & IHall & IHjoin)].
  - repeat split. repeat constructor.
  - rewrite strings_Split_cons. cbn [count_byte].
    pose proof (strings_Split_not_nil s sep) as Hne.
    destruct (Ascii.eqb c sep) eqn:Hc.
    + apply Ascii.eqb_eq in Hc. subst c. repeat split.
      * simpl. rewrite IHlen. reflexivity.
      * constructor; [ reflexivity | exact IHall ].
      * destruct (strings_Split s sep) as [| h t] eqn:Hs; [ contradiction | ].
        rewrite strings_Join_cons, IHjoin. reflexivity.
    + destruct (strings_Split s sep) as [| h t] eqn:Hs; [ contradiction | ].
      repeat split.
      * simpl in IHlen |- *. exact IHlen.
      * inversion IHall as [| ? ? Hh Ht]; subst. constructor; [ | exact Ht ].
        cbn [count_byte]. rewrite Hc, Hh. reflexivity.
      * destruct t as [| h' t].
        -- simpl in IHjoin |- *. rewrite IHjoin. reflexivity.
        -- rewrite strings_Join_cons in IHjoin |- *.
           rewrite <- IHjoin. reflexivity.
Qed.

Lemma strings_Split_none (s : string) (sep : ascii) :
  count_byte sep s = O -> strings_Split s sep = [s].
Proof.
  induction s as [| c s IH]; [ reflexivity | ].
  cbn [count_byte]. rewrite strings_Split_cons.
  destruct (Ascii.eqb c sep); [ discriminate | ].
  intros Hs. rewrite (IH Hs). reflexivity.
Qed.

Lemma strings_Split_two (a b : string) (sep : ascii) :
  count_byte sep a = O -> count_byte sep b = O ->
  strings_Split (a +:+ String sep b) sep = [a; b].
Proof.
  intros Ha Hb. induction a as [| c a IH].
  - simpl. rewrite Ascii.eqb_refl, (strings_Split_none b sep Hb). reflexivity.
  - cbn [count_byte] in Ha. change (String c a +:+ String sep b)
      with (String c (a +:+ String sep b)).
    rewrite strings_Split_cons.
    destruct (Ascii.eqb c sep); [ discriminate Ha | ].
    rewrite (IH Ha). reflexivity.
Qed.

(** A field whose tag is a source and a key, neither of them holding a
    dot, with a dot between them: when the source is [query], [path] or
    [header] the field is converted from the maps of that source, under
    the key (for [path] the multi-valued map is empty); any other source
    is the unknown-source error for the field, which is left as it was. *)
Theorem annotation_dispatch {lib : GoLib} (req : APIGatewayProxyRequest)
    (name source key : string) (t : rtype) (v : value) :
  count_byte "." source = O ->
  count_byte "." key = O ->
  unmarshalEvent_field req (mkField name (source +:+ String "." key) t) v
  = if String.eqb source "query" then
      unmarshalField t v (QueryStringParameters req)
        (MultiValueQueryStringParameters req) key
    else if String.eqb source "path" then
      unmarshalField t v (PathParameters req) ∅ key
    else if String.eqb source "header" then
      unmarshalField t v (Headers req) (MultiValueHeaders req) key
    else (v, Returns (Some (UnknownSourceKind source name))).
Proof.
  intros Hsource Hkey.
  rewrite (unmarshalEvent_field_two req _ v source key)
    by (apply strings_Split_two; assumption).
  unfold source_maps. simpl.
  destruct (String.eqb source "query"); [ reflexivity | ].
  destruct (String.eqb source "path"); [ reflexivity | ].
  destruct (String.eqb source "header"); reflexivity.
Qed.

Lemma annotation_dispatch_witness :
  unmarshalEvent_field (lib := plain_lib)
    (mkRequest ∅ ∅ ∅ {[ "X-Flag" := "on" ]} ∅ EmptyString false)
    (mkField "Flag" ("header" +:+ String "." "X-Flag") (Prim reflect_Bool None))
    (VBool false)
  = (VBool true, Returns None).
Proof.
  exact (annotation_dispatch (lib := plain_lib)
           (mkRequest ∅ ∅ ∅ {[ "X-Flag" := "on" ]} ∅ EmptyString false)
           "Flag" "header" "X-Flag" (Prim reflect_Bool None) (VBool false)
           eq_refl eq_refl).
Defined.

(** * Sequences of texts *)

(** A sequence of strings whose key is present never fails: the field
    holds the texts of the list, in the order of the list. *)
Theorem string_sequence_is_copied {lib : GoLib} (d : option string) (v : value)
    (params : gmap string string) (multiParam : gmap string (list string))
    (param : string) (strs : list string) :
  multiParam !! param = Some strs ->
  unmarshalField (SliceOf (Prim reflect_String d)) v params multiParam param
  = (VSlice (Some (map VString strs)), Returns None).
Proof.
  intros Hpres. rewrite (slice_case _ v params multiParam param strs Hpres).
  set (f := fun e str =>
              unmarshalField (Prim reflect_String d) e {[ "param" := str ]}
                ∅ "param").
  assert (Hloop : range_strs f 0 strs
                    (replicate (length strs) (zero (Prim reflect_String d)))
                  = (map (fun str => fst (f (zero (Prim reflect_String d)) str))
                       strs, Returns None)).
  { apply (range_strs_all_ok f (zero (Prim reflect_String d)) strs []).
    apply Forall_forall. intros str _. reflexivity. }
  rewrite Hloop. reflexivity.
Qed.

Lemma string_sequence_is_copied_witness :
  unmarshalField (lib := plain_lib) (SliceOf (Prim reflect_String None))
    (VSlice None) ∅ {[ "tags" := ["b"; "a"; "b"] ]} "tags"
  = (VSlice (Some (map VString ["b"; "a"; "b"])), Returns None).
Proof.
  exact (string_sequence_is_copied (lib := plain_lib) None (VSlice None) ∅
           {[ "tags" := ["b"; "a"; "b"] ]} "tags" ["b"; "a"; "b"] eq_refl).
Defined.

(** * Optional fields and panics *)


(** * The body *)

(** ** Base64 *)

Lemma byte_value_range (b : ascii) : 0 <= byte_value b < 256.
Proof. unfold byte_value. pose proof (nat_ascii_bounded b). lia. Qed.

Lemma byte_of_Z_eq (z : Z) (b : ascii) : z mod 256 = byte_value b -> byte_of_Z z = b.
Proof.
  intros Hz. unfold byte_of_Z. rewrite Hz. unfold byte_value.
  rewrite Nat2Z.id. apply ascii_nat_embedding.
Qed.

Lemma alphabet_checked :
  forallb (fun n =>
             let c := base64_char (Z.of_nat n) in
             match base64_value c with
             | Some v => v =? Z.of_nat n
             | None => false
             end && negb (is_newline c))
    (seq 0 64) = true.
Proof. vm_compute. reflexivity. Qed.

Lemma base64_char_value (v : Z) :
  0 <= v < 64 ->
  base64_value (base64_char v) = Some v /\ is_newline (base64_char v) = false.
Proof.
  intros Hv. pose proof alphabet_checked as Hall.
  rewrite forallb_forall in Hall. specialize (Hall (Z.to_nat v)).
  rewrite Z2Nat.id in Hall by lia.
  assert (Hin : In (Z.to_nat v) (seq 0 64)) by (apply in_seq; lia).
  apply Hall in Hin. cbv zeta in Hin. apply andb_prop in Hin as [Hval Hnl].
  split.
  - destruct (base64_value (base64_char v)) as [v'|]; [ | discriminate Hval ].
    apply Z.eqb_eq in Hval. subst v'. reflexivity.
  - destruct (is_newline (base64_char v)); [ discriminate Hnl | reflexivity ].
Qed.

Lemma base64_quantum_3 (b1 b2 b3 : ascii) (rest out : string) :
  base64_quanta rest = Some out ->
  let val := byte_value b1 * 65536 + byte_value b2 * 256 + byte_value b3 in
  base64_quanta
    (String (base64_char (val / 262144))
       (String (base64_char ((val / 4096) mod 64))
          (String (base64_char ((val / 64) mod 64))
             (String (base64_char (val mod 64)) rest))))
  = Some (String b1 (String b2 (String b3 out))).
Proof.
  intros Hrest val.
  pose proof (byte_value_range b1) as Hb1. pose proof (byte_value_range b2) as Hb2.
  pose proof (byte_value_range b3) as Hb3.
  assert (H1 : 0 <= val / 262144 < 64) by (subst val; Z.div_mod_to_equations; lia).
  assert (H2 : 0 <= (val / 4096) mod 64 < 64) by (apply Z.mod_pos_bound; lia).
  assert (H3 : 0 <= (val / 64) mod 64 < 64) by (apply Z.mod_pos_bound; lia).
  assert (H4 : 0 <= val mod 64 < 64) by (apply Z.mod_pos_bound; lia).
  cbn [base64_quanta].
  rewrite (proj1 (base64_char_value _ H1)), (proj1 (base64_char_value _ H2)),
    (proj1 (base64_char_value _ H3)), (proj1 (base64_char_value _ H4)), Hrest.
  assert (Hval : val / 262144 * 262144 + (val / 4096) mod 64 * 4096
                 + (val / 64) mod 64 * 64 + val mod 64 = val)
    by (Z.div_mod_to_equations; lia).
  rewrite Hval. f_equal.
  rewrite (byte_of_Z_eq (val / 65536) b1),
    (byte_of_Z_eq (val / 256) b2), (byte_of_Z_eq val b3);
    [ reflexivity | | | ]; subst val; Z.div_mod_to_equations; lia.
Qed.

Lemma base64_quantum_2 (b1 b2 : ascii) :
  let val := byte_value b1 * 65536 + byte_value b2 * 256 in
  base64_quanta
    (String (base64_char (val / 262144))
       (String (base64_char ((val / 4096) mod 64))
          (String (base64_char ((val / 64) mod 64)) "=")))
  = Some (String b1 (String b2 EmptyString)).
Proof.
  intros val.
  pose proof (byte_value_range b1) as Hb1. pose proof (byte_value_range b2) as Hb2.
  assert (H1 : 0 <= val / 262144 < 64) by (subst val; Z.div_mod_to_equations; lia).
  assert (H2 : 0 <= (val / 4096) mod 64 < 64) by (apply Z.mod_pos_bound; lia).
  assert (H3 : 0 <= (val / 64) mod 64 < 64) by (apply Z.mod_pos_bound; lia).
  cbn [base64_quanta].
  rewrite (proj1 (base64_char_value _ H1)), (proj1 (base64_char_value _ H2)),
    (proj1 (base64_char_value _ H3)).
  change (base64_value "=") with (@None Z). cbn [Ascii.eqb andb String.eqb].
  change (Ascii.eqb "=" "=") with true. cbn [andb].
  assert (Hval : val / 262144 * 262144 + (val / 4096) mod 64 * 4096
                 + (val / 64) mod 64 * 64 = val)
    by (subst val; Z.div_mod_to_equations; lia).
  rewrite Hval. f_equal.
  rewrite (byte_of_Z_eq (val / 65536) b1), (byte_of_Z_eq (val / 256) b2);
    [ reflexivity | | ]; subst val; Z.div_mod_to_equations; lia.
Qed.

Lemma base64_quantum_1 (b1 : ascii) :
  let val := byte_value b1 * 65536 in
  base64_quanta
    (String (base64_char (val / 262144))
       (String (base64_char ((val / 4096) mod 64)) "=="))
  = Some (String b1 EmptyString).
Proof.
  intros val. pose proof (byte_value_range b1) as Hb1.
  assert (H1 : 0 <= val / 262144 < 64) by (subst val; Z.div_mod_to_equations; lia).
  assert (H2 : 0 <= (val / 4096) mod 64 < 64) by (apply Z.mod_pos_bound; lia).
  cbn [base64_quanta].
  rewrite (proj1 (base64_char_value _ H1)), (proj1 (base64_char_value _ H2)).
  change (base64_value "=") with (@None Z).
  change (Ascii.eqb "=" "=") with true. cbn [andb String.eqb].
  assert (Hval : val / 262144 * 262144 + (val / 4096) mod 64 * 4096 = val)
    by (subst val; Z.div_mod_to_equations; lia).
  rewrite Hval. f_equal.
  rewrite (byte_of_Z_eq (val / 65536) b1); [ reflexivity | ].
  subst val; Z.div_mod_to_equations; lia.
Qed.

Lemma drop_newlines_char (v : Z) (s : string) :
  0 <= v < 64 ->
  drop_newlines (String (base64_char v) s)
  = String (base64_char v) (drop_newlines s).
Proof.
  intros Hv. cbn [drop_newlines].
  rewrite (proj2 (base64_char_value v Hv)). reflexivity.
Qed.

Lemma base64_encode_decode (n : nat) : forall src : string,
  (String.length src <= n)%nat ->
  drop_newlines (base64_EncodeToString src) = base64_EncodeToString src
  /\ base64_quanta (base64_EncodeToString src) = Some src.
Proof.
  induction n as [| n IH]; intros src Hlen.
  - destruct src; [ split; reflexivity | simpl in Hlen; lia ].
  - destruct src as [| b1 [| b2 [| b3 rest]]].
    + split; reflexivity.
    + pose proof (byte_value_range b1) as Hb1. cbn [base64_EncodeToString]. cbv zeta.
      split; [ | apply base64_quantum_1 ].
      rewrite !drop_newlines_char;
        [ reflexivity | apply Z.mod_pos_bound; lia
        | Z.div_mod_to_equations; lia ].
    + pose proof (byte_value_range b1) as Hb1. pose proof (byte_value_range b2) as Hb2.
      cbn [base64_EncodeToString]. cbv zeta.
      split; [ | apply base64_quantum_2 ].
      rewrite !drop_newlines_char;
        [ reflexivity | apply Z.mod_pos_bound; lia | apply Z.mod_pos_bound; lia
        | Z.div_mod_to_equations; lia ].
    + pose proof (byte_value_range b1) as Hb1. pose proof (byte_value_range b2) as Hb2.
      pose proof (byte_value_range b3) as Hb3.
      destruct (IH rest) as [IHnl IHq]; [ simpl in Hlen; lia | ].
      cbn [base64_EncodeToString]. cbv zeta.
      split; [ | apply base64_quantum_3; exact IHq ].
      rewrite !drop_newlines_char, IHnl;
        [ reflexivity | apply Z.mod_pos_bound; lia | apply Z.mod_pos_bound; lia
        | apply Z.mod_pos_bound; lia | Z.div_mod_to_equations; lia ].
Qed.

Lemma base64_DecodeString_EncodeToString (src : string) :
  base64_DecodeString (base64_EncodeToString src) = Some src.
Proof.
  unfold base64_DecodeString.
  destruct (base64_encode_decode (String.length src) src (le_n _)) as [-> Hq].
  exact Hq.
Qed.

(** ** The fields do not read the body *)

Lemma unmarshalEvent_with_body {lib : GoLib} (req : APIGatewayProxyRequest)
    (body : string) (encoded : bool) (tgt : target) :
  unmarshalEvent (with_body req body encoded) tgt = unmarshalEvent req tgt.
Proof.
  unfold unmarshalEvent. destruct tgt as [| ty | ty | [fields | ty]];
    try reflexivity.
  assert (Hfields : unmarshalEvent_fields (with_body req body encoded) fields
                    = unmarshalEvent_fields req fields).
  { induction fields as [| [f v] fields IH]; [ reflexivity | ].
    cbn [unmarshalEvent_fields]. rewrite IH. reflexivity. }
  rewrite Hfields. reflexivity.
Qed.

(** A body that arrives as the base64 encoding of a text, with the flag
    set, is bound as that text is when it arrives as it is, with the flag
    unset: same target, same outcome. *)
Theorem encoded_body_binds_as_plain {lib : GoLib} (req : APIGatewayProxyRequest)
    (raw : string) (body : bool) (tgt : target) :
  UnmarshalRequest (with_body req (base64_EncodeToString raw) true) body tgt
  = UnmarshalRequest (with_body req raw false) body tgt.
Proof.
  unfold UnmarshalRequest. destruct body.
  - unfold unmarshalBody. cbn [IsBase64Encoded Body with_body].
    rewrite base64_DecodeString_EncodeToString.
    destruct (json_Unmarshal raw tgt) as [tgt' [msg|]]; [ reflexivity | ].
    rewrite !unmarshalEvent_with_body. reflexivity.
  - rewrite !unmarshalEvent_with_body. reflexivity.
Qed.

(** * Absent and empty values *)

Lemma unmarshalField_absent {lib : GoLib} (t : rtype) (v : value)
    (params : gmap string string) (multiParam : gmap string (list string))
    (param : string) :
  params !! param = None ->
  multiParam !! param = None ->
  unmarshalField t v params multiParam param = (absent_result t v, Returns None).
Proof.
  intros Hp Hm. destruct t as [k d | elem | elem | name]; simpl.
  - destruct k; simpl; unfold map_lookup_ok, map_index; rewrite ?Hp;
      reflexivity.
  - rewrite Hp. reflexivity.
  - rewrite Hm. reflexivity.
  - reflexivity.
Qed.

Lemma unmarshalEvent_fields_lookup {lib : GoLib} (req : APIGatewayProxyRequest)
    (fields : list (StructField * value)) :
  snd (unmarshalEvent_fields req fields) = Returns None ->
  forall (i : nat) (f : StructField) (v : value),
    fields !! i = Some (f, v) ->
    fst (unmarshalEvent_fields req fields) !! i
    = Some (f, fst (unmarshalEvent_field req f v)).
Proof.
  induction fields as [| [f0 v0] fields IH]; intros Hok i f v Hi.
  - discriminate Hi.
  - cbn [unmarshalEvent_fields] in Hok |- *.
    destruct (unmarshalEvent_field req f0 v0) as [v0' o] eqn:Hf0.
    destruct o as [[err|]|reason]; try discriminate Hok.
    destruct (unmarshalEvent_fields req fields) as [rest' o'].
    simpl in Hok, IH |- *. destruct i as [| i]; simpl in Hi |- *.
    + injection Hi as <- <-. rewrite Hf0. reflexivity.
    + exact (IH Hok i f v Hi).
Qed.

(** In a call that returns no error, a field whose key is absent from the
    maps of its source is overwritten with the zero value when it is of a
    scalar kind, whatever it held before (a value decoded from the body,
    say), and keeps its value when it is optional, a sequence, or of a type
    the decoder has no case for. *)
Theorem absent_key_in_record {lib : GoLib} (req : APIGatewayProxyRequest)
    (fields : list (StructField * value)) (i : nat) (f : StructField)
    (v : value) (source key : string) (sourceMap : gmap string string)
    (multiMap : gmap string (list string)) :
  snd (unmarshalEvent_fields req fields) = Returns None ->
  fields !! i = Some (f, v) ->
  strings_Split (lambdaTag f) "." = [source; key] ->
  source_maps req source = Some (sourceMap, multiMap) ->
  sourceMap !! key = None ->
  multiMap !! key = None ->
  fst (unmarshalEvent_fields req fields) !! i
  = Some (f, absent_result (Type_ f) v).
Proof.
  intros Hok Hi Hsplit Hmaps Hs Hm.
  rewrite (unmarshalEvent_fields_lookup req fields Hok i f v Hi).
  rewrite (unmarshalEvent_field_two req f v source key Hsplit), Hmaps.
  rewrite (unmarshalField_absent _ v sourceMap multiMap key Hs Hm). reflexivity.
Qed.

Lemma absent_key_in_record_witness :
  fst (unmarshalEvent_fields (lib := plain_lib)
         (query_request {[ "q" := "go" ]} ∅)
         [(mkField "Search" "query.q" (Prim reflect_String None), VString "");
          (mkField "Page" "query.page" (Prim reflect_Int None), VInt 7);
          (mkField "Tags" "query.tags" (SliceOf (Prim reflect_String None)),
           VSlice (Some [VString "x"]))]) !! 1%nat
  = Some (mkField "Page" "query.page" (Prim reflect_Int None), VInt 0).
Proof.
  exact (absent_key_in_record (lib := plain_lib)
           (query_request {[ "q" := "go" ]} ∅)
           [(mkField "Search" "query.q" (Prim reflect_String None), VString "");
            (mkField "Page" "query.page" (Prim reflect_Int None), VInt 7);
            (mkField "Tags" "query.tags" (SliceOf (Prim reflect_String None)),
             VSlice (Some [VString "x"]))]
           1%nat (mkField "Page" "query.page" (Prim reflect_Int None)) (VInt 7)
           "query" "page" {[ "q" := "go" ]} ∅
           eq_refl eq_refl eq_refl eq_refl eq_refl eq_refl).
Defined.


